(** * Span-based handwriting classification of [ocr_handwriting.py]

    A shallow embedding of the classification core of the script:
    [classify_spans], [word_is_handwritten] and the loops of [main] that
    aggregate words into line tags, page and document statistics and the
    wrapped transcript of the handwritten words.

    Python values are modelled as follows.
    - [int] is [Z]; [range(a, b)] is the list [seqZ a (b - a)], empty when
      [b <= a].
    - a [set] of offsets is a [gset Z]; [s.add(o)] is [{[o]} ∪ s].
    - [str] is a list of Unicode code points, so that [len] counts code
      points and [str.split()] / [str.strip()] use Python's white space.
    - an attribute the script guards with [if x:], [x or ...] or
      [x is None] is an [option].
    - the tri-state result [True] / [False] / [None] of
      [word_is_handwritten] is an [option bool].
    - [float] arithmetic on confidences is kept abstract (class [PyNum]):
      the statements about means hold for every implementation of [sum]
      and of true division. *)

From Stdlib Require Import ZArith QArith Lia List Sorted.
From stdpp Require Import base decidable numbers list sets gmap strings.

Local Open Scope Z_scope.

(** ** Python strings *)

Definition char := N.
Definition str := list char.

(** Code points for which [str.isspace()] holds; [str.split()] and
    [str.strip()] without argument use exactly these. *)
Definition is_space (c : char) : bool :=
  ((9 <=? c) && (c <=? 13) || (28 <=? c) && (c <=? 32) ||
   (c =? 133) || (c =? 160) || (c =? 5760) ||
   (8192 <=? c) && (c <=? 8202) || (c =? 8232) || (c =? 8233) ||
   (c =? 8239) || (c =? 8287) || (c =? 12288))%N.

(** The literal [" "]. *)
Definition SP : char := 32%N.

(** A Rocq string literal read as a Python [str] (ASCII only). *)
Definition py (s : string) : str :=
  map Ascii.N_of_ascii (String.list_ascii_of_string s).

(** [sep.join(parts)] *)
Fixpoint join (sep : str) (parts : list str) : str :=
  match parts with
  | [] => []
  | [p] => p
  | p :: ps => p ++ sep ++ join sep ps
  end.

(** [s.split()]: maximal runs of non-space characters, in order.  [cur] is
    the run being read. *)
Fixpoint split_from (cur : str) (s : str) : list str :=
  match s with
  | [] => match cur with [] => [] | _ => [cur] end
  | c :: s' =>
      if is_space c
      then match cur with
           | [] => split_from [] s'
           | _ => cur :: split_from [] s'
           end
      else split_from (cur ++ [c]) s'
  end.

Definition split (s : str) : list str := split_from [] s.

(** [s.strip()] *)
Fixpoint lstrip (s : str) : str :=
  match s with
  | c :: s' => if is_space c then lstrip s' else s
  | [] => []
  end.

Definition strip (s : str) : str := rev (lstrip (rev (lstrip s))).

(** Truth value of a [str]: the empty string is false. *)
Definition truthy (s : str) : bool :=
  match s with [] => false | _ => true end.

(** ** Numbers that carry confidences *)

Class PyNum := {
  num : Type;
  (** the literal [0] of [x or 0] and of [... else 0] *)
  num_zero : num;
  (** the builtin [sum] over a sequence of confidences *)
  py_sum : list num → num;
  (** [x / n] for a confidence sum [x] and a length [n] *)
  true_div : num → nat → num;
}.

(** Exact rational arithmetic is one implementation. *)
Definition QNum : PyNum := {|
  num := Q;
  num_zero := 0%Q;
  py_sum := foldr Qplus 0%Q;
  true_div := λ x n, (x / inject_Z (Z.of_nat n))%Q;
|}.

(** ** Data model (the attributes of the analysis result the script reads) *)

Record DocumentSpan := { sp_offset : Z; sp_length : Z }.

Record DocumentStyle := {
  is_handwritten : option bool;
  spans : option (list DocumentSpan);
}.

(** The dictionary [{"handwritten": ..., "printed": ...}]. *)
Record SpanMap := { handwritten : gset Z; printed : gset Z }.

(** ** [classify_spans] *)

Definition range (start stop : Z) : list Z := seqZ start (stop - start).

(** [for offset in range(span.offset, span.offset + span.length):
       target.add(offset)] *)
Definition add_span (target : gset Z) (sp : DocumentSpan) : gset Z :=
  foldl (λ t offset, {[offset]} ∪ t) target
        (range (sp_offset sp) (sp_offset sp + sp_length sp)).

(** [if style.spans: for span in style.spans: ...] *)
Definition add_spans (target : gset Z) (sps : option (list DocumentSpan)) : gset Z :=
  match sps with
  | Some l => foldl add_span target l
  | None => target
  end.

(** One iteration of [for style in styles].  [target] aliases one of the
    two sets of the map, so adding to it updates that set. *)
Definition classify_style (m : SpanMap) (style : DocumentStyle) : SpanMap :=
  match is_handwritten style with
  | None => m
  | Some true =>
      {| handwritten := add_spans (handwritten m) (spans style);
         printed := printed m |}
  | Some false =>
      {| handwritten := handwritten m;
         printed := add_spans (printed m) (spans style) |}
  end.

Definition empty_map : SpanMap := {| handwritten := ∅; printed := ∅ |}.

Definition classify_spans (styles : option (list DocumentStyle)) : SpanMap :=
  match styles with
  | None | Some [] => empty_map
  | Some l => foldl classify_style empty_map l
  end.

(** ** [word_is_handwritten] *)

Definition Handwritten : option bool := Some true.
Definition Printed : option bool := Some false.
Definition Unknown : option bool := None.

(** [sum(1 for o in range(start, end) if o in s)] *)
Definition count_in (s : gset Z) (start stop : Z) : nat :=
  length (filter (λ o, o ∈ s) (range start stop)).

Section Model.
Context {PN : PyNum}.

Record DocumentWord := {
  content : str;
  span : option DocumentSpan;
  confidence : option num;
}.

Record DocumentLine := {
  line_content : str;
  line_spans : option (list DocumentSpan);
}.

Record DocumentPage := {
  page_number : Z;
  words : option (list DocumentWord);
  lines : option (list DocumentLine);
}.

Record AnalyzeResult := {
  pages : list DocumentPage;
  styles : option (list DocumentStyle);
}.

Definition word_is_handwritten (word : DocumentWord) (span_map : SpanMap)
  : option bool :=
  match span word with
  | None => None
  | Some sp =>
      let start := sp_offset sp in
      let stop := start + sp_length sp in
      let hw_count := count_in (handwritten span_map) start stop in
      let pr_count := count_in (printed span_map) start stop in
      if (pr_count <? hw_count)%nat then Some true
      else if (hw_count <? pr_count)%nat then Some false
      else None
  end.

(** ** The loops of [main] *)

(** [w.confidence or 0] *)
Definition conf_or_0 (w : DocumentWord) : num :=
  match confidence w with Some c => c | None => num_zero end.

(** [sum(cs) / len(cs) if cs else 0] *)
Definition mean_or_0 (cs : list num) : num :=
  match cs with
  | [] => num_zero
  | _ => true_div (py_sum cs) (length cs)
  end.

(** The three lists filled by [for word in words] together with
    [all_confidences], which lives across pages. *)
Record Buckets := {
  hw_words : list DocumentWord;
  pr_words : list DocumentWord;
  unknown_words : list DocumentWord;
}.

Definition bucket_word (span_map : SpanMap)
    (st : list num * Buckets) (word : DocumentWord) : list num * Buckets :=
  let '(all_confidences, b) := st in
  let all_confidences := all_confidences ++ [conf_or_0 word] in
  match word_is_handwritten word span_map with
  | Some true =>
      (all_confidences,
       {| hw_words := hw_words b ++ [word]; pr_words := pr_words b;
          unknown_words := unknown_words b |})
  | Some false =>
      (all_confidences,
       {| hw_words := hw_words b; pr_words := pr_words b ++ [word];
          unknown_words := unknown_words b |})
  | None =>
      (all_confidences,
       {| hw_words := hw_words b; pr_words := pr_words b;
          unknown_words := unknown_words b ++ [word] |})
  end.

(** *** Lines *)

Inductive LineTag := TagHW | TagPR.

(** [w.span.offset >= s.offset and w.span.offset < s.offset + s.length] *)
Definition starts_in (wsp s : DocumentSpan) : bool :=
  (sp_offset s <=? sp_offset wsp) && (sp_offset wsp <? sp_offset s + sp_length s).

(** The condition of the comprehension that builds [line_words]:
    [w.span and line.spans and any(... for s in line.spans)]. *)
Definition in_line (line : DocumentLine) (w : DocumentWord) : bool :=
  match span w, line_spans line with
  | Some wsp, Some (s :: ss) => existsb (starts_in wsp) (s :: ss)
  | _, _ => false
  end.

Definition line_words (words : list DocumentWord) (line : DocumentLine)
  : list DocumentWord :=
  List.filter (in_line line) words.

(** [x > 0.5] for the quotient [x] of two integers.  True division of
    integers is correctly rounded and 0.5 is a float, so the comparison
    agrees with the exact one for every count a list can have. *)
Definition gt_half (x : Q) : bool := negb (Qle_bool x (1 # 2)).

(** [n or 1] *)
Definition or_1 (n : nat) : nat :=
  match n with O => 1%nat | _ => n end.

Record LineReport := {
  tag : LineTag;
  line_conf : num;
  display_text : str;
}.

Definition ELLIPSIS : str := [32; 8230]%N.

Definition line_report (span_map : SpanMap) (words : list DocumentWord)
    (line : DocumentLine) : LineReport :=
  let text := line_content line in
  let line_words := line_words words line in
  let hw_count :=
    length (filter (λ w, word_is_handwritten w span_map = Some true) line_words) in
  let total_in_line := or_1 (length line_words) in
  let tag :=
    if gt_half (Z.of_nat hw_count # Pos.of_nat total_in_line)
    then TagHW else TagPR in
  let line_conf := mean_or_0 (map conf_or_0 line_words) in
  let display_text :=
    if (90 <? length text)%nat then take 90 text ++ ELLIPSIS else take 90 text in
  {| tag := tag; line_conf := line_conf; display_text := display_text |}.

(** *** Pages *)

Record PageReport := {
  rep_page_number : Z;
  rep_lines : nat;
  rep_words : nat;
  rep_page_conf : num;
  rep_handwritten : nat;
  rep_printed : nat;
  rep_unclassified : nat;
  rep_line_reports : list LineReport;
}.

(** The state carried by [for page in result.pages]. *)
Record Totals := {
  total_words : nat;
  total_hw_words : nat;
  all_confidences : list num;
}.

Definition page_step (span_map : SpanMap)
    (st : Totals * list PageReport) (page : DocumentPage)
  : Totals * list PageReport :=
  let '(t, reports) := st in
  let words := default [] (words page) in
  let lines := default [] (lines page) in
  let total_words := (total_words t + length words)%nat in
  let '(all_confidences, b) :=
    foldl (bucket_word span_map)
          (all_confidences t,
           {| hw_words := []; pr_words := []; unknown_words := [] |}) words in
  let total_hw_words := (total_hw_words t + length (hw_words b))%nat in
  let page_conf := mean_or_0 (map conf_or_0 words) in
  ({| total_words := total_words; total_hw_words := total_hw_words;
      all_confidences := all_confidences |},
   reports ++
   [{| rep_page_number := page_number page;
       rep_lines := length lines;
       rep_words := length words;
       rep_page_conf := page_conf;
       rep_handwritten := length (hw_words b);
       rep_printed := length (pr_words b);
       rep_unclassified := length (unknown_words b);
       rep_line_reports := map (line_report span_map words) lines |}]).

Definition per_page (span_map : SpanMap) (result : AnalyzeResult)
  : Totals * list PageReport :=
  foldl (page_step span_map)
        ({| total_words := 0; total_hw_words := 0; all_confidences := [] |}, [])
        (pages result).

(** *** Summary *)

Record Summary := {
  sum_pages : nat;
  sum_total_words : Z;
  sum_handwritten_words : Z;
  sum_printed_words : Z;
  sum_avg_conf : num;
}.

Definition summary (result : AnalyzeResult) (t : Totals) : Summary :=
  let avg_conf := mean_or_0 (all_confidences t) in
  {| sum_pages := length (pages result);
     sum_total_words := Z.of_nat (total_words t);
     sum_handwritten_words := Z.of_nat (total_hw_words t);
     sum_printed_words := Z.of_nat (total_words t) - Z.of_nat (total_hw_words t);
     sum_avg_conf := avg_conf |}.

(** *** Handwritten text *)

Definition INDENT : str := [SP; SP; SP; SP].

(** One iteration of [for word in words_list]; the second component is
    the sequence of lines printed so far. *)
Definition wrap_step (st : str * list str) (word : str) : str * list str :=
  let '(line, out) := st in
  let '(line, out) :=
    if (80 <? length line + length word + 1)%nat
    then (INDENT, out ++ [line])
    else (line, out) in
  (line ++ word ++ [SP], out).

Definition wrap (words_list : list str) : list str :=
  let '(line, out) := foldl wrap_step (INDENT, []) words_list in
  if truthy (strip line) then out ++ [line] else out.

Definition hw_on_page (span_map : SpanMap) (page : DocumentPage)
  : list DocumentWord :=
  filter (λ w, word_is_handwritten w span_map = Some true)
         (default [] (words page)).

(** The wrapped lines printed for one page, after its header line. *)
Definition page_transcript (span_map : SpanMap) (page : DocumentPage) : list str :=
  match hw_on_page span_map page with
  | [] => []
  | hw =>
      let hw_text := join [SP] (map content hw) in
      wrap (split hw_text)
  end.

Record TranscriptBlock := {
  blk_page_number : Z;
  blk_words : nat;
  blk_avg_conf : num;
  blk_lines : list str;
}.

Definition transcript_block (span_map : SpanMap) (page : DocumentPage)
  : option TranscriptBlock :=
  match hw_on_page span_map page with
  | [] => None
  | hw =>
      Some {| blk_page_number := page_number page;
              blk_words := length hw;
              blk_avg_conf := true_div (py_sum (map conf_or_0 hw)) (length hw);
              blk_lines := page_transcript span_map page |}
  end.

(** [if total_hw_words > 0:] the two heading lines are printed and then
    the blocks of the pages; [None] when nothing is printed, [Some] for
    the heading followed by the blocks. *)
Definition handwritten_text (span_map : SpanMap) (result : AnalyzeResult)
    (t : Totals) : option (list TranscriptBlock) :=
  if (0 <? total_hw_words t)%nat
  then Some (omap (transcript_block span_map) (pages result))
  else None.

(** The whole run of the core on an analysis result. *)
Record Output := {
  out_span_map : SpanMap;
  out_pages : list PageReport;
  out_transcript : option (list TranscriptBlock);
  out_summary : Summary;
}.

Definition run (result : AnalyzeResult) : Output :=
  let span_map := classify_spans (styles result) in
  let '(t, reports) := per_page span_map result in
  {| out_span_map := span_map;
     out_pages := reports;
     out_transcript := handwritten_text span_map result t;
     out_summary := summary result t |}.

End Model.

(** ** What a call of [classify_spans] can do *)

(** A call returns a value or raises. *)
Inductive outcome (A : Type) : Type :=
  | Returned (a : A)
  | Raised (message : str).
Arguments Returned {A} a.
Arguments Raised {A} message.

(** [classify_spans] has no [raise]; its body reads attributes, builds
    [range]s of integers and adds to sets, none of which raises on a span
    whose offset and length are integers.  Every call returns. *)
Definition call_classify_spans (styles : option (list DocumentStyle))
  : outcome SpanMap :=
  Returned (classify_spans styles).

(** * Notions used to state the properties *)

(** [sp] covers the offsets of its half-open range. *)
Definition covers (sp : DocumentSpan) (o : Z) : Prop :=
  sp_offset sp ≤ o < sp_offset sp + sp_length sp.

Global Instance covers_dec sp o : Decision (covers sp o).
Proof. unfold covers. apply _. Defined.

(** A Span with a negative offset or a non-positive length. *)
Definition malformed (sp : DocumentSpan) : Prop :=
  sp_offset sp < 0 ∨ sp_length sp ≤ 0.

(** The spans of the annotations classified [b], in input order: the raw
    input of one coverage set. *)
Definition raw_spans (b : bool) (l : list DocumentStyle) : list DocumentSpan :=
  mjoin (map (λ st, default [] (spans st))
              (filter (λ st, is_handwritten st = Some b) l)).

(** Some annotation classified [b] has a span that covers [o]. *)
Definition annotated (b : bool) (l : list DocumentStyle) (o : Z) : Prop :=
  ∃ st sp, st ∈ l ∧ is_handwritten st = Some b ∧
           sp ∈ default [] (spans st) ∧ covers sp o.

(** The number of distinct offsets of [[start, stop)] inside the union of
    the spans [raw]: each offset of the range is looked at once. *)
Definition union_count (raw : list DocumentSpan) (start stop : Z) : nat :=
  length (filter (λ o, Exists (λ sp, covers sp o) raw) (range start stop)).

(** The number of offsets of [sp] that [s] holds. *)
Definition covered_count (s : gset Z) (sp : DocumentSpan) : nat :=
  size (filter (covers sp) s).

Section aggregation_defs.
Context `{PN : PyNum}.

(** The words of [ws] with verdict [v]. *)
Definition with_verdict (span_map : SpanMap) (v : option bool)
    (ws : list DocumentWord) : list DocumentWord :=
  filter (λ w, word_is_handwritten w span_map = v) ws.

(** The word has a span and that span starts inside a span of the line. *)
Definition starts_within (line : DocumentLine) (w : DocumentWord) : Prop :=
  match span w with
  | Some wsp =>
      Exists (λ s, sp_offset s ≤ sp_offset wsp < sp_offset s + sp_length s)
             (default [] (line_spans line))
  | None => False
  end.

(** All words of the document, page after page. *)
Definition all_words (result : AnalyzeResult) : list DocumentWord :=
  mjoin (map (λ page, default [] (words page)) (pages result)).

(** The report of one page as a function of the page. *)
Definition page_report (span_map : SpanMap) (page : DocumentPage) : PageReport :=
  let ws := default [] (words page) in
  {| rep_page_number := page_number page;
     rep_lines := length (default [] (lines page));
     rep_words := length ws;
     rep_page_conf := mean_or_0 (map conf_or_0 ws);
     rep_handwritten := length (with_verdict span_map Handwritten ws);
     rep_printed := length (with_verdict span_map Printed ws);
     rep_unclassified := length (with_verdict span_map Unknown ws);
     rep_line_reports := map (line_report span_map ws) (default [] (lines page)) |}.

End aggregation_defs.

Global Instance starts_within_dec `{PyNum} line w : Decision (starts_within line w).
Proof. unfold starts_within. destruct (span w); apply _. Defined.

(** The words the wrapping loop runs over. *)
Definition words_list `{PyNum} (span_map : SpanMap) (page : DocumentPage) : list str :=
  split (join [SP] (map content (hw_on_page span_map page))).

(** No character of [w] is white space. *)
Definition spaceless (w : str) : Prop := Forall (λ c, is_space c = false) w.

(** A non-empty word without white space: what [split] returns. *)
Definition clean (w : str) : Prop := w ≠ [] ∧ spaceless w.

(** [s] reads as the words [ws] and ends between words: whatever follows
    is split on its own. *)
Definition tokens (s : str) (ws : list str) : Prop :=
  ∀ rest, split_from [] (s ++ rest) = ws ++ split_from [] rest.

(** The printed line of a block of words: the indent, then every word
    followed by one space. *)
Definition render (block : list str) : str :=
  INDENT ++ concat (map (λ w, w ++ [SP]) block).

(** A block fits, or is one word of more than 75 characters. *)
Definition block_ok (block : list str) : Prop :=
  (length (render block) ≤ 80)%nat ∨ ∃ w, block = [w] ∧ (75 < length w)%nat.

(** * Sample inputs *)

Definition mk_span (o n : Z) : DocumentSpan := {| sp_offset := o; sp_length := n |}.

Definition mk_style (b : option bool) (sps : list DocumentSpan) : DocumentStyle :=
  {| is_handwritten := b; spans := Some sps |}.

Definition mk_word (c : string) (sp : option DocumentSpan) (cf : Q)
  : @DocumentWord QNum :=
  @Build_DocumentWord QNum (py c) sp (Some (cf : @num QNum)).

(** Offsets 0..4 handwritten, 5..9 printed, 20..29 both. *)
Definition tie_styles : list DocumentStyle :=
  [ mk_style (Some true) [mk_span 0 5; mk_span 20 10];
    mk_style None [mk_span 0 100];
    mk_style (Some false) [mk_span 5 5; mk_span 20 10] ].

Definition tie_map : SpanMap := classify_spans (Some tie_styles).

Definition tie_word : @DocumentWord QNum :=
  mk_word "tie" (Some (mk_span 0 10)) (9 # 10).

(** The same coverage inside [[0, 10)], different coverage outside. *)
Definition tie_map_far : SpanMap :=
  classify_spans (Some (mk_style (Some true) [mk_span 50 7] :: tie_styles)).

(** One handwritten annotation with a span of negative offset and one
    printed annotation with spans of length zero and below. *)
Definition malformed_styles : list DocumentStyle :=
  [ mk_style (Some true) [mk_span (-3) 2];
    mk_style (Some false) [mk_span 4 0; mk_span 7 (-2)] ].

(** Two overlapping and two adjacent handwritten spans. *)
Definition overlap_styles : list DocumentStyle :=
  [ mk_style (Some true) [mk_span 0 5; mk_span 3 5];
    mk_style (Some true) [mk_span 8 2; mk_span 2 2] ].

(** Handwritten offsets 0..9, printed offsets 10..19. *)
Definition vote_map : SpanMap :=
  classify_spans (Some [ mk_style (Some true) [mk_span 0 10];
                         mk_style (Some false) [mk_span 10 10] ]).

Definition vote_words : list (@DocumentWord QNum) :=
  [ mk_word "ab" (Some (mk_span 0 3)) (1 # 1);
    mk_word "cd" (Some (mk_span 4 3)) (1 # 1);
    mk_word "ef" (Some (mk_span 7 2)) (1 # 1);
    mk_word "gh" (Some (mk_span 10 3)) (1 # 2);
    mk_word "ij" (Some (mk_span 14 3)) (1 # 2) ].

(** The words that start at 0, 4, 10 and 14: two handwritten, two printed. *)
Definition line_even : DocumentLine :=
  {| line_content := py "ab cd gh ij";
     line_spans := Some [mk_span 0 7; mk_span 10 10] |}.

(** All five words: three handwritten, two printed. *)
Definition line_odd : DocumentLine :=
  {| line_content := py "ab cd ef gh ij";
     line_spans := Some [mk_span 0 20] |}.

(** A line whose second word came without a span. *)
Definition w_hello : @DocumentWord QNum := mk_word "Hello" (Some (mk_span 0 5)) (9 # 10).
Definition w_there : @DocumentWord QNum := mk_word "there" None (1 # 2).
Definition w_hello_moved : @DocumentWord QNum :=
  mk_word "Hello" (Some (mk_span 50 5)) (9 # 10).
Definition line_hello : DocumentLine :=
  {| line_content := py "Hello there"; line_spans := Some [mk_span 0 11] |}.

(** One page: a handwritten word and a word without a span. *)
Definition doc_unknown : @AnalyzeResult QNum :=
  {| pages := [ {| page_number := 1;
                   words := Some [w_hello; w_there];
                   lines := Some [line_hello] |} ];
     styles := Some [mk_style (Some true) [mk_span 0 5]] |}.

(** Two pages of one and three words. *)
Definition doc_uneven : @AnalyzeResult QNum :=
  {| pages := [ {| page_number := 1;
                   words := Some [mk_word "a" (Some (mk_span 0 1)) (1 # 1)];
                   lines := None |};
                {| page_number := 2;
                   words := Some [mk_word "b" (Some (mk_span 2 1)) (0 # 1);
                                  mk_word "c" (Some (mk_span 4 1)) (0 # 1);
                                  mk_word "d" None (0 # 1)];
                   lines := None |} ];
     styles := Some [mk_style (Some true) [mk_span 0 3]] |}.

(** A page with one handwritten word. *)
Definition one_word_page (c : str) : @DocumentPage QNum :=
  {| page_number := 1;
     words := Some [ @Build_DocumentWord QNum c (Some (mk_span 0 5))
                       (Some ((9 # 10)%Q : @num QNum)) ];
     lines := None |}.

Definition hw_0_5 : SpanMap :=
  classify_spans (Some [mk_style (Some true) [mk_span 0 5]]).

(** A word whose content holds a space. *)
Definition page_york : @DocumentPage QNum := one_word_page (py "New York").

(** A word of 70 characters and a word whose content holds a space,
    both inside the handwritten offsets 0..9. *)
Definition page_york_after_long : @DocumentPage QNum :=
  {| page_number := 1;
     words := Some [ @Build_DocumentWord QNum (repeat 97%N 70) (Some (mk_span 0 5))
                       (Some ((9 # 10)%Q : @num QNum));
                     mk_word "New York" (Some (mk_span 6 4)) (9 # 10) ];
     lines := None |}.

(** The two words of the end-to-end example of the specification. *)
Definition page_hello : @DocumentPage QNum :=
  {| page_number := 1;
     words := Some [ mk_word "Hello" (Some (mk_span 0 5)) (95 # 100);
                     mk_word "World" (Some (mk_span 6 5)) (9 # 10) ];
     lines := None |}.

Definition hw_0_10 : SpanMap :=
  classify_spans (Some [mk_style (Some true) [mk_span 0 10]]).

(** * The rest of [ocr_handwriting.py] *)

(** Two more operations on confidences: [int(score * width)] of
    [confidence_bar] and the builtin [max] of the language summary. *)
Class PyNumOps `{PN : PyNum} := {
  int_mul : num → Z → Z;
  py_max : num → num → num;
}.

(** With rationals: truncation toward zero and the larger of the two,
    the first when neither is larger. *)
Definition QNumOps : @PyNumOps QNum := {|
  int_mul := λ (x : @num QNum) width, Z.quot (Qnum x * width) (Z.pos (Qden x));
  py_max := λ (a b : @num QNum), if Qle_bool b a then a else b;
|}.

(** ** [confidence_bar] *)

Definition FULL_BLOCK : char := 9608%N.
Definition LIGHT_SHADE : char := 9617%N.

(** [c * n] for a one-character string [c]: empty when [n <= 0]. *)
Definition str_mul (c : char) (n : Z) : str := replicate (Z.to_nat n) c.

Definition confidence_bar `{PyNumOps} (score : num) (width : Z) : str :=
  let filled := int_mul score width in
  str_mul FULL_BLOCK filled ++ str_mul LIGHT_SHADE (width - filled).

(** ** The style section of [main] *)

Record StyleReport := {
  hw_regions : nat;
  pr_regions : nat;
  hw_chars : nat;
  pr_chars : nat;
  total_chars : nat;
  handwriting_detected : bool;
}.

(** [if result.styles: ... else: ...]; [None] stands for the branch that
    prints that no style information is available. *)
Definition style_report (styles : option (list DocumentStyle))
    (span_map : SpanMap) : option StyleReport :=
  match styles with
  | None | Some [] => None
  | Some l =>
      let hw_styles := filter (λ s, is_handwritten s = Some true) l in
      let pr_styles := filter (λ s, is_handwritten s = Some false) l in
      let hw_chars := size (handwritten span_map) in
      let pr_chars := size (printed span_map) in
      let total_chars := or_1 (hw_chars + pr_chars) in
      Some {| hw_regions := length hw_styles;
              pr_regions := length pr_styles;
              hw_chars := hw_chars;
              pr_chars := pr_chars;
              total_chars := total_chars;
              handwriting_detected := (0 <? hw_chars)%nat |}
  end.

(** ** The font section of [main] *)

Section Fonts.
Context `{PN : PyNum}.

(** The attributes of a style the font section reads with [getattr]. *)
Record FontStyle := {
  similar_font_family : option str;
  font_weight : option str;
  font_style : option str;
  font_confidence : option num;
}.

(** [x or d] for an optional string [x]: [None] and [""] give [d]. *)
Definition str_or (x : option str) (d : str) : str :=
  match x with
  | Some (c :: s) => c :: s
  | _ => d
  end.

(** The condition of the comprehension that builds [font_styles]. *)
Definition has_font (s : FontStyle) : bool :=
  truthy (default [] (font_style s)) || truthy (default [] (font_weight s)).

Definition font_key (s : FontStyle) : str * str * str :=
  (str_or (similar_font_family s) (py "unknown"),
   str_or (font_weight s) (py "normal"),
   str_or (font_style s) (py "normal")).

Record FontLine := {
  fl_key : str * str * str;
  fl_conf : num;
}.

Definition font_line (s : FontStyle) : FontLine :=
  {| fl_key := font_key s;
     fl_conf := default num_zero (font_confidence s) |}.

(** One iteration of [for style in font_styles]: the set [seen] and the
    lines printed so far. *)
Definition font_step (st : gset (str * str * str) * list FontLine)
    (style : FontStyle) : gset (str * str * str) * list FontLine :=
  let '(seen, out) := st in
  let key := font_key style in
  if decide (key ∈ seen) then (seen, out)
  else ({[key]} ∪ seen, out ++ [font_line style]).

Inductive FontReport :=
  | NoStyleData
  | NoFontStyles
  | FontLines (out : list FontLine).

Definition font_details (styles : option (list FontStyle)) : FontReport :=
  match styles with
  | None | Some [] => NoStyleData
  | Some l =>
      match List.filter has_font l with
      | [] => NoFontStyles
      | font_styles => FontLines (foldl font_step (∅, []) font_styles).2
      end
  end.

End Fonts.

(** ** The language section of [main] *)

Section Languages.
Context `{PO : PyNumOps}.

Record DocumentLanguage := {
  locale : str;
  lang_spans : list DocumentSpan;
  lang_confidence : num;
}.

(** The dictionary [{"count": ..., "max_confidence": ...}]. *)
Record LangInfo := { li_count : nat; li_max_confidence : num }.

(** [lang_summary] keeps the order in which its keys came, as a [dict]
    does: a list of items with distinct keys. *)
Definition LangSummary := list (str * LangInfo).

Fixpoint dict_get (d : LangSummary) (k : str) : option LangInfo :=
  match d with
  | [] => None
  | (k', v) :: d' => if decide (k = k') then Some v else dict_get d' k
  end.

(** [d[k] = v]: in place when the key is there, at the end when not. *)
Fixpoint dict_set (d : LangSummary) (k : str) (v : LangInfo) : LangSummary :=
  match d with
  | [] => [(k, v)]
  | (k', v') :: d' =>
      if decide (k = k') then (k, v) :: d' else (k', v') :: dict_set d' k v
  end.

(** One iteration of [for lang in result.languages]. *)
Definition lang_step (lang_summary : LangSummary) (lang : DocumentLanguage)
  : LangSummary :=
  let info :=
    match dict_get lang_summary (locale lang) with
    | Some info => info
    | None => {| li_count := 0; li_max_confidence := num_zero |}
    end in
  dict_set lang_summary (locale lang)
    {| li_count := (li_count info + length (lang_spans lang))%nat;
       li_max_confidence := py_max (li_max_confidence info) (lang_confidence lang) |}.

(** [sorted(items, key=lambda x: -x[1]["count"])]: a stable sort, larger
    counts first. *)
Fixpoint insert_item (x : str * LangInfo) (l : LangSummary) : LangSummary :=
  match l with
  | [] => [x]
  | y :: l' =>
      if (li_count y.2 <=? li_count x.2)%nat then x :: y :: l'
      else y :: insert_item x l'
  end.

Definition sorted_items (d : LangSummary) : LangSummary :=
  foldr insert_item [] d.

(** The lines of the section; [None] when there is no language. *)
Definition language_report (languages : option (list DocumentLanguage))
  : option LangSummary :=
  match languages with
  | None | Some [] => None
  | Some l => Some (sorted_items (foldl lang_step [] l))
  end.

End Languages.

(** * More notions and sample inputs *)

(** The map with its two sets exchanged. *)
Definition swap_map (m : SpanMap) : SpanMap :=
  {| handwritten := printed m; printed := handwritten m |}.

(** The total length of the spans that have one. *)
Definition total_length (raw : list DocumentSpan) : nat :=
  sum_list (map (λ sp, Z.to_nat (sp_length sp)) raw).

(** The same annotations as [tie_styles], reordered and repeated. *)
Definition tie_styles_shuffled : list DocumentStyle :=
  [ mk_style (Some false) [mk_span 5 5; mk_span 20 10];
    mk_style (Some true) [mk_span 0 5; mk_span 20 10];
    mk_style None [mk_span 0 100];
    mk_style (Some false) [mk_span 5 5; mk_span 20 10] ].

(** A word inside the handwritten offsets 0..9 of [vote_map]. *)
Definition w_inside : @DocumentWord QNum := mk_word "ab" (Some (mk_span 2 3)) (1 # 1).

(** A word whose span has no offset. *)
Definition w_empty_span : @DocumentWord QNum := mk_word "ab" (Some (mk_span 2 0)) (1 # 1).

(** A line of 95 characters. *)
Definition line_wide : DocumentLine :=
  {| line_content := repeat 120%N 95; line_spans := None |}.

(** Every block after the first begins with a word that did not fit on
    the line of the block before it. *)
Fixpoint greedy (blocks : list (list str)) : Prop :=
  match blocks with
  | b1 :: ((b2 :: _) as rest) =>
      (∃ w tl, b2 = w :: tl ∧ (80 < length (render b1) + length w + 1)%nat) ∧
      greedy rest
  | _ => True
  end.

(** The line of the first block is within the width. *)
Definition first_fits (blocks : list (list str)) : Prop :=
  match blocks with
  | b :: _ => (length (render b) ≤ 80)%nat
  | [] => True
  end.

(** A word of 76 characters followed by a short one. *)
Definition page_long_first : @DocumentPage QNum :=
  {| page_number := 1;
     words := Some [ @Build_DocumentWord QNum (repeat 97%N 76) (Some (mk_span 0 3))
                       (Some ((9 # 10)%Q : @num QNum));
                     mk_word "ab" (Some (mk_span 3 2)) (9 # 10) ];
     lines := None |}.

(** Three styles with a font attribute, two of them alike, and one
    without. *)
Definition font_samples : list (@FontStyle QNum) :=
  [ @Build_FontStyle QNum (Some (py "Arial")) (Some (py "bold")) None (Some ((9 # 10)%Q : @num QNum));
    @Build_FontStyle QNum None None None (Some ((1 # 2)%Q : @num QNum));
    @Build_FontStyle QNum None (Some []) (Some (py "italic")) None;
    @Build_FontStyle QNum (Some (py "Arial")) (Some (py "bold")) (Some []) (Some ((1 # 10)%Q : @num QNum)) ].

(** [s] is the first style of [fs] with its key, and that key is not in
    [seen]. *)
Definition first_with_key `{PyNum} (seen : gset (str * str * str))
    (fs : list FontStyle) (s : FontStyle) : Prop :=
  ∃ pre post, fs = pre ++ s :: post ∧ (font_key s ∉ seen) ∧
              ∀ s', s' ∈ pre → font_key s' ≠ font_key s.

Section language_defs.
Context `{PO : PyNumOps}.

(** The entries of [l] for the locale [k]. *)
Definition for_locale (k : str) (l : list DocumentLanguage) : list DocumentLanguage :=
  filter (λ lang, locale lang = k) l.

(** The number of spans of the entries of [l]. *)
Definition span_total (l : list DocumentLanguage) : nat :=
  sum_list (map (λ lang, length (lang_spans lang)) l).

(** [max] taken entry by entry, starting from 0. *)
Definition best_confidence (l : list DocumentLanguage) : num :=
  foldl py_max num_zero (map lang_confidence l).

(** The update of [lang_step] on an item. *)
Definition add_lang (info : LangInfo) (lang : DocumentLanguage) : LangInfo :=
  {| li_count := (li_count info + length (lang_spans lang))%nat;
     li_max_confidence := py_max (li_max_confidence info) (lang_confidence lang) |}.

Definition zero_info : LangInfo := {| li_count := 0; li_max_confidence := num_zero |}.

(** Larger counts come first. *)
Definition count_desc (x y : str * LangInfo) : Prop :=
  (li_count y.2 ≤ li_count x.2)%nat.

End language_defs.

(** Entries of two locales, the first seen twice. *)
Definition lang_samples : list (@DocumentLanguage QNum) :=
  [ @Build_DocumentLanguage QNum (py "en") [mk_span 0 5] ((1 # 2)%Q : @num QNum);
    @Build_DocumentLanguage QNum (py "fr") [mk_span 5 5; mk_span 12 3; mk_span 20 1]
      ((9 # 10)%Q : @num QNum);
    @Build_DocumentLanguage QNum (py "en") [mk_span 30 5] ((3 # 4)%Q : @num QNum) ].

(** * Coverage sets *)

Section coverage.
Implicit Types (t s : gset Z) (sp : DocumentSpan) (o : Z).

Lemma elem_of_range o a b : o ∈ range a b ↔ a ≤ o < b.
Proof. unfold range. rewrite elem_of_seqZ. lia. Qed.

Lemma NoDup_range a b : NoDup (range a b).
Proof. apply NoDup_seqZ. Qed.

Lemma elem_of_add_all t (l : list Z) o :
  o ∈ foldl (λ t x, {[x]} ∪ t) t l ↔ o ∈ t ∨ o ∈ l.
Proof.
  revert t. induction l as [|x l IH]; intros t; simpl.
  - rewrite elem_of_nil. tauto.
  - rewrite IH, elem_of_union, elem_of_singleton, elem_of_cons. tauto.
Qed.

Lemma elem_of_add_span t sp o : o ∈ add_span t sp ↔ o ∈ t ∨ covers sp o.
Proof. unfold add_span. by rewrite elem_of_add_all, elem_of_range. Qed.

Lemma elem_of_add_span_list t (l : list DocumentSpan) o :
  o ∈ foldl add_span t l ↔ o ∈ t ∨ Exists (λ sp, covers sp o) l.
Proof.
  revert t. induction l as [|sp l IH]; intros t; simpl.
  - rewrite Exists_nil. tauto.
  - rewrite IH, elem_of_add_span, Exists_cons. tauto.
Qed.

Lemma add_span_list_app t (l1 l2 : list DocumentSpan) :
  foldl add_span t (l1 ++ l2) = foldl add_span (foldl add_span t l1) l2.
Proof. apply foldl_app. Qed.

(** Counting the members of a range one offset at a time gives the
    cardinality of the part of the set inside the range. *)
Lemma count_in_size s a b :
  count_in s a b = size (filter (λ o, a ≤ o < b) s).
Proof.
  unfold count_in.
  rewrite <- (size_list_to_set (C:=gset Z) (filter (λ o, o ∈ s) (range a b))).
  - f_equal. apply set_eq. intros o.
    rewrite elem_of_list_to_set, list_elem_of_filter, elem_of_filter, elem_of_range.
    tauto.
  - apply NoDup_filter, NoDup_range.
Qed.

Lemma filter_ext_in {A} (P Q : A → Prop)
    `{∀ x, Decision (P x), ∀ x, Decision (Q x)} (l : list A) :
  (∀ x, x ∈ l → (P x ↔ Q x)) → filter P l = filter Q l.
Proof.
  induction l as [|x l IH]; intros Hl; [done|].
  rewrite !filter_cons.
  rewrite IH by (intros y Hy; apply Hl; by right).
  assert (P x ↔ Q x) as Hx by (apply Hl; by left).
  destruct (decide (P x)), (decide (Q x)); tauto || done.
Qed.

Lemma count_in_ext s1 s2 a b :
  (∀ o, a ≤ o < b → (o ∈ s1 ↔ o ∈ s2)) → count_in s1 a b = count_in s2 a b.
Proof.
  intros Hag. unfold count_in. f_equal.
  apply filter_ext_in. intros o Ho. apply Hag. by apply elem_of_range.
Qed.

End coverage.

(** * Style indexing *)

Section indexing.
Implicit Types (l : list DocumentStyle) (m : SpanMap) (o : Z).

Lemma SpanMap_eq m1 m2 :
  handwritten m1 = handwritten m2 → printed m1 = printed m2 → m1 = m2.
Proof. destruct m1, m2; simpl; congruence. Qed.

Lemma classify_spans_foldl styles :
  classify_spans styles = foldl classify_style empty_map (default [] styles).
Proof. by destruct styles as [[|st l]|]. Qed.

Lemma add_spans_foldl (t : gset Z) sps :
  add_spans t sps = foldl add_span t (default [] sps).
Proof. by destruct sps. Qed.

(** Each set of the map is built from the raw spans of its own class. *)
Lemma classify_style_foldl m l :
  handwritten (foldl classify_style m l)
    = foldl add_span (handwritten m) (raw_spans true l) ∧
  printed (foldl classify_style m l)
    = foldl add_span (printed m) (raw_spans false l).
Proof.
  revert m. induction l as [|st l IH]; intros m; [done|].
  simpl foldl. destruct (IH (classify_style m st)) as [-> ->].
  unfold raw_spans, classify_style. rewrite !filter_cons.
  destruct (is_handwritten st) as [[|]|] eqn:Hst; simpl;
    repeat case_decide; try congruence; simpl;
    rewrite ?add_span_list_app, ?add_spans_foldl; done.
Qed.

Lemma handwritten_classify_spans styles :
  handwritten (classify_spans styles)
    = foldl add_span ∅ (raw_spans true (default [] styles)).
Proof. rewrite classify_spans_foldl. apply classify_style_foldl. Qed.

Lemma printed_classify_spans styles :
  printed (classify_spans styles)
    = foldl add_span ∅ (raw_spans false (default [] styles)).
Proof. rewrite classify_spans_foldl. apply classify_style_foldl. Qed.

Lemma Exists_raw_spans b l o :
  Exists (λ sp, covers sp o) (raw_spans b l) ↔ annotated b l o.
Proof.
  unfold raw_spans, annotated. rewrite Exists_exists. split.
  - intros (sp & Hin & Hc).
    apply list_elem_of_join in Hin as (sps & Hsp & Hsps).
    apply list_elem_of_fmap in Hsps as (st & -> & Hst).
    apply list_elem_of_filter in Hst as [Hb Hst]. eauto 10.
  - intros (st & sp & Hst & Hb & Hsp & Hc). exists sp. split; [|done].
    apply list_elem_of_join. exists (default [] (spans st)). split; [done|].
    apply list_elem_of_fmap. exists st. split; [done|].
    by apply list_elem_of_filter.
Qed.

Lemma elem_of_built b l o :
  o ∈ foldl add_span ∅ (raw_spans b l) ↔ annotated b l o.
Proof.
  rewrite elem_of_add_span_list, Exists_raw_spans.
  split; [intros [H|H]; [by apply not_elem_of_empty in H|done] | auto].
Qed.

(** Each set holds the offsets covered by an annotation of its class. *)
Lemma elem_of_classify_spans styles (b : bool) o :
  o ∈ (if b then handwritten (classify_spans styles)
       else printed (classify_spans styles))
  ↔ annotated b (default [] styles) o.
Proof.
  destruct b;
    [rewrite handwritten_classify_spans | rewrite printed_classify_spans];
    apply elem_of_built.
Qed.

(** Annotations without a classification can be dropped. *)
Lemma raw_spans_classified b l :
  raw_spans b (filter (λ st, is_handwritten st ≠ None) l) = raw_spans b l.
Proof.
  unfold raw_spans. f_equal. f_equal. rewrite list_filter_filter.
  apply filter_ext_in. intros st _. split; [tauto|]. intros H. split; congruence.
Qed.

Lemma count_in_built (raw : list DocumentSpan) a b :
  count_in (foldl add_span ∅ raw) a b = union_count raw a b.
Proof.
  unfold count_in, union_count. f_equal. apply filter_ext_in. intros o _.
  rewrite elem_of_add_span_list.
  split; [intros [H|H]; [by apply not_elem_of_empty in H|done] | auto].
Qed.

Lemma count_in_whole (s : gset Z) a b :
  (∀ o, o ∈ s → a ≤ o < b) → count_in s a b = size s.
Proof.
  intros Hs. rewrite count_in_size. f_equal. apply set_eq. intros o.
  rewrite elem_of_filter. split; [tauto|]. auto.
Qed.

End indexing.

(** * Word verdicts *)

Lemma count_in_covered (s : gset Z) (sp : DocumentSpan) :
  count_in s (sp_offset sp) (sp_offset sp + sp_length sp) = covered_count s sp.
Proof. apply count_in_size. Qed.

(** C1: a word without a span is Unknown; otherwise, with [hw] and [pr] the
    numbers of offsets of the word's span held by the handwritten and by
    the printed set, the verdict is Handwritten when [hw > pr], Printed
    when [pr > hw] and Unknown when [hw = pr], zero or not. *)
Theorem word_is_handwritten_verdict `{PyNum} (word : DocumentWord) (m : SpanMap) :
  match span word with
  | None => word_is_handwritten word m = Unknown
  | Some sp =>
      let hw := covered_count (handwritten m) sp in
      let pr := covered_count (printed m) sp in
      ((hw > pr)%nat → word_is_handwritten word m = Handwritten) ∧
      ((pr > hw)%nat → word_is_handwritten word m = Printed) ∧
      (hw = pr → word_is_handwritten word m = Unknown)
  end.
Proof.
  unfold word_is_handwritten. destruct (span word) as [sp|]; [|done].
  cbv zeta. rewrite !count_in_covered.
  set (hw := covered_count (handwritten m) sp).
  set (pr := covered_count (printed m) sp).
  destruct (Nat.ltb_spec pr hw), (Nat.ltb_spec hw pr);
    repeat split; intros; (done || lia).
Qed.

Lemma word_is_handwritten_verdict_witness :
  covered_count (handwritten tie_map) (mk_span 0 10) = 5%nat ∧
  covered_count (printed tie_map) (mk_span 0 10) = 5%nat ∧
  word_is_handwritten tie_word tie_map = Unknown.
Proof.
  split; [by vm_compute|]. split; [by vm_compute|].
  pose proof (word_is_handwritten_verdict tie_word tie_map) as Hv.
  simpl in Hv. destruct Hv as (_ & _ & Hv). apply Hv. by vm_compute.
Defined.

(** C10: the verdict of a word with a span depends only on which offsets
    of the word's own range the two sets hold. *)
Theorem word_is_handwritten_local `{PyNum}
    (word : DocumentWord) (sp : DocumentSpan) (m1 m2 : SpanMap) :
  span word = Some sp →
  (∀ o, covers sp o →
        (o ∈ handwritten m1 ↔ o ∈ handwritten m2) ∧
        (o ∈ printed m1 ↔ o ∈ printed m2)) →
  word_is_handwritten word m1 = word_is_handwritten word m2.
Proof.
  intros Hsp Hag. unfold word_is_handwritten. rewrite Hsp. cbv zeta.
  rewrite (count_in_ext (handwritten m1) (handwritten m2))
    by (intros o Ho; by apply Hag).
  rewrite (count_in_ext (printed m1) (printed m2))
    by (intros o Ho; by apply Hag).
  done.
Qed.

Lemma tie_maps_agree (o : Z) :
  covers (mk_span 0 10) o →
  (o ∈ handwritten tie_map ↔ o ∈ handwritten tie_map_far) ∧
  (o ∈ printed tie_map ↔ o ∈ printed tie_map_far).
Proof.
  intros Ho.
  assert (forallb (λ o,
            Bool.eqb (bool_decide (o ∈ handwritten tie_map))
                     (bool_decide (o ∈ handwritten tie_map_far)) &&
            Bool.eqb (bool_decide (o ∈ printed tie_map))
                     (bool_decide (o ∈ printed tie_map_far)))
          (range 0 10) = true) as Hall by (vm_compute; reflexivity).
  rewrite forallb_forall in Hall. specialize (Hall o).
  rewrite <- list_elem_of_In, elem_of_range in Hall. specialize (Hall Ho).
  apply andb_prop in Hall as [H1 H2].
  apply Bool.eqb_prop in H1, H2.
  split.
  - by rewrite <- (bool_decide_spec (o ∈ handwritten tie_map)), H1, bool_decide_spec.
  - by rewrite <- (bool_decide_spec (o ∈ printed tie_map)), H2, bool_decide_spec.
Qed.

Lemma word_is_handwritten_local_witness :
  tie_map ≠ tie_map_far ∧
  word_is_handwritten tie_word tie_map = word_is_handwritten tie_word tie_map_far.
Proof.
  split.
  - intros Heq. assert (50 ∈ handwritten tie_map) as Hin
      by (rewrite Heq; by vm_compute).
    revert Hin. by vm_compute.
  - apply (word_is_handwritten_local tie_word (mk_span 0 10));
      [reflexivity | apply tie_maps_agree].
Defined.

(** * Theorems on style indexing *)

(** C3: annotations without a classification contribute to neither set;
    the handwritten set holds exactly the offsets covered by a span of a
    handwritten annotation and the printed set exactly those covered by a
    span of a printed annotation; an offset covered by both kinds is in
    both sets. *)
Theorem classify_spans_partition (styles : option (list DocumentStyle)) :
  classify_spans styles
    = classify_spans
        (Some (filter (λ st, is_handwritten st ≠ None) (default [] styles))) ∧
  (∀ o, o ∈ handwritten (classify_spans styles)
        ↔ annotated true (default [] styles) o) ∧
  (∀ o, o ∈ printed (classify_spans styles)
        ↔ annotated false (default [] styles) o) ∧
  (∀ o, annotated true (default [] styles) o →
        annotated false (default [] styles) o →
        o ∈ handwritten (classify_spans styles) ∧
        o ∈ printed (classify_spans styles)).
Proof.
  assert (∀ o, o ∈ handwritten (classify_spans styles)
               ↔ annotated true (default [] styles) o) as Hhw.
  { intros o. apply (elem_of_classify_spans styles true). }
  assert (∀ o, o ∈ printed (classify_spans styles)
               ↔ annotated false (default [] styles) o) as Hpr.
  { intros o. apply (elem_of_classify_spans styles false). }
  split; [|split; [done|split; [done|]]].
  - apply SpanMap_eq.
    + rewrite !handwritten_classify_spans. simpl default.
      by rewrite raw_spans_classified.
    + rewrite !printed_classify_spans. simpl default.
      by rewrite raw_spans_classified.
  - intros o Ht Hf. split; [by apply Hhw | by apply Hpr].
Qed.

Lemma classify_spans_partition_witness :
  classify_spans (Some tie_styles)
    = classify_spans (Some [ mk_style (Some true) [mk_span 0 5; mk_span 20 10];
                             mk_style (Some false) [mk_span 5 5; mk_span 20 10] ]) ∧
  25 ∈ handwritten (classify_spans (Some tie_styles)) ∧
  25 ∈ printed (classify_spans (Some tie_styles)).
Proof.
  destruct (classify_spans_partition (Some tie_styles)) as (Hdrop & _ & _ & Hboth).
  split; [exact Hdrop|]. apply Hboth.
  - exists (mk_style (Some true) [mk_span 0 5; mk_span 20 10]), (mk_span 20 10).
    repeat split; try done; [by left | by right; left].
  - exists (mk_style (Some false) [mk_span 5 5; mk_span 20 10]), (mk_span 20 10).
    repeat split; try done; [by right; right; left | by right; left].
Defined.

(** C4: counting a query range against a built set, one offset at a
    time, gives the number of distinct offsets of the range inside the
    union of the raw spans the set was built from, whatever their
    overlaps; over a range that holds every covered offset it gives the
    number of distinct covered offsets, the cardinality of the set. *)
Theorem count_overlap_union
    (styles : option (list DocumentStyle)) (start stop : Z) :
  count_in (handwritten (classify_spans styles)) start stop
    = union_count (raw_spans true (default [] styles)) start stop ∧
  count_in (printed (classify_spans styles)) start stop
    = union_count (raw_spans false (default [] styles)) start stop ∧
  (∀ raw : list DocumentSpan,
     count_in (foldl add_span ∅ raw) start stop = union_count raw start stop ∧
     ((∀ sp o, sp ∈ raw → covers sp o → start ≤ o < stop) →
      count_in (foldl add_span ∅ raw) start stop = size (foldl add_span ∅ raw))).
Proof.
  rewrite handwritten_classify_spans, printed_classify_spans.
  split; [apply count_in_built|]. split; [apply count_in_built|].
  intros raw. split; [apply count_in_built|].
  intros Hfull. apply count_in_whole. intros o Ho.
  apply elem_of_add_span_list in Ho as [Ho|Ho]; [by apply not_elem_of_empty in Ho|].
  apply Exists_exists in Ho as (sp & Hsp & Hc). eauto.
Qed.

Lemma count_overlap_union_witness :
  raw_spans true overlap_styles = [mk_span 0 5; mk_span 3 5; mk_span 8 2; mk_span 2 2] ∧
  count_in (handwritten (classify_spans (Some overlap_styles))) 0 10 = 10%nat ∧
  count_in (handwritten (classify_spans (Some overlap_styles))) 4 9 = 5%nat ∧
  size (handwritten (classify_spans (Some overlap_styles))) = 10%nat.
Proof.
  split; [reflexivity|].
  destruct (count_overlap_union (Some overlap_styles) 0 10) as (H1 & _ & H3).
  destruct (count_overlap_union (Some overlap_styles) 4 9) as (H2 & _ & _).
  split; [rewrite H1; by vm_compute|].
  split; [rewrite H2; by vm_compute|].
  rewrite handwritten_classify_spans.
  destruct (H3 (raw_spans true overlap_styles)) as [H4 H5].
  simpl default. rewrite <- H5.
  - rewrite H4. by vm_compute.
  - intros sp o Hsp Hc. unfold covers in Hc.
    change (raw_spans true overlap_styles)
      with [mk_span 0 5; mk_span 3 5; mk_span 8 2; mk_span 2 2] in Hsp.
    repeat (apply elem_of_cons in Hsp as [->|Hsp]; [simpl in Hc; lia|]).
    by apply elem_of_nil in Hsp.
Defined.

Lemma add_span_empty (t : gset Z) (sp : DocumentSpan) :
  sp_length sp ≤ 0 → add_span t sp = t.
Proof.
  intros Hlen. unfold add_span, range, seqZ.
  replace (Z.to_nat (sp_offset sp + sp_length sp - sp_offset sp)) with 0%nat by lia.
  done.
Qed.

(** C5 (as the code has it): an input that contains a Span with a
    negative offset or a non-positive length is not rejected.  The call
    returns its map; a Span of non-positive length adds nothing, and every
    offset of the range of a Span, negative ones too, is in the set of the
    Span's annotation. *)
Theorem malformed_span_not_rejected
    (styles : option (list DocumentStyle)) (b : bool)
    (st : DocumentStyle) (sp : DocumentSpan) :
  st ∈ default [] styles →
  is_handwritten st = Some b →
  sp ∈ default [] (spans st) →
  malformed sp →
  ∃ m, call_classify_spans styles = Returned m ∧
       (sp_length sp ≤ 0 → ∀ t, add_span t sp = t) ∧
       (∀ o, covers sp o → o ∈ (if b then handwritten m else printed m)).
Proof.
  intros Hst Hb Hsp _. exists (classify_spans styles).
  split; [done|]. split; [intros Hlen t; by apply add_span_empty|].
  intros o Hc.
  pose proof (elem_of_classify_spans styles b o) as Hin.
  destruct b; apply Hin; exists st, sp; done.
Qed.

Lemma malformed_span_not_rejected_witness :
  ∃ m, call_classify_spans (Some malformed_styles) = Returned m ∧
       -3 ∈ handwritten m ∧ -2 ∈ handwritten m.
Proof.
  destruct (malformed_span_not_rejected (Some malformed_styles) true
              (mk_style (Some true) [mk_span (-3) 2]) (mk_span (-3) 2))
    as (m & Hm & _ & Hin).
  - by left.
  - reflexivity.
  - by left.
  - left. simpl. lia.
  - exists m. split; [exact Hm|].
    split; apply Hin; unfold covers; simpl; lia.
Defined.

(** C5 as stated fails: on an input whose spans are all malformed the
    call returns, with the negative offsets in the handwritten set and
    the spans of length zero and below skipped. *)
Lemma malformed_spans_accepted :
  Forall malformed (raw_spans true malformed_styles ++
                    raw_spans false malformed_styles) ∧
  call_classify_spans (Some malformed_styles)
    = Returned {| handwritten := {[ -3; -2 ]}; printed := ∅ |}.
Proof.
  split.
  - simpl. repeat (apply List.Forall_cons; [unfold malformed; simpl; lia|]).
    apply List.Forall_nil.
  - vm_compute. reflexivity.
Qed.

(** * Line tags *)

Lemma gt_half_spec (a : Z) (p : positive) :
  gt_half (a # p) = true ↔ Z.pos p < 2 * a.
Proof.
  unfold gt_half. rewrite Bool.negb_true_iff, <- Bool.not_true_iff_false.
  rewrite Qle_bool_iff. unfold Qle. simpl. lia.
Qed.

Lemma total_in_line_max (n : nat) :
  Z.pos (Pos.of_nat (or_1 n)) = Z.of_nat (Nat.max n 1).
Proof.
  destruct n as [|n]; [done|]. unfold or_1.
  rewrite <- Pos.of_nat_succ, Zpos_P_of_succ_nat. lia.
Qed.

Lemma gt_half_fraction (hw n : nat) :
  gt_half (Z.of_nat hw # Pos.of_nat (or_1 n)) = true
  ↔ (1 # 2 < inject_Z (Z.of_nat hw) / inject_Z (Z.of_nat (Nat.max n 1)))%Q.
Proof.
  rewrite gt_half_spec, total_in_line_max.
  rewrite <- (total_in_line_max n), <- Qmake_Qdiv.
  unfold Qlt. simpl. rewrite total_in_line_max. lia.
Qed.

Section lines.
Context `{PN : PyNum}.
Implicit Types (span_map : SpanMap) (line : DocumentLine) (w : DocumentWord)
  (ws : list DocumentWord).

Lemma tag_line_report span_map ws line :
  tag (line_report span_map ws line) = TagHW
  ↔ Z.of_nat (Nat.max (length (line_words ws line)) 1)
    < 2 * Z.of_nat (length (with_verdict span_map Handwritten (line_words ws line))).
Proof.
  unfold line_report, with_verdict, Handwritten. cbv zeta. simpl tag.
  rewrite <- total_in_line_max, <- gt_half_spec.
  destruct (gt_half _); split; (done || congruence).
Qed.

Lemma tag_line_report_PR span_map ws line :
  tag (line_report span_map ws line) = TagPR
  ↔ ¬ tag (line_report span_map ws line) = TagHW.
Proof. destruct (tag _); split; (done || congruence). Qed.

Lemma in_line_spec line w : in_line line w = true ↔ starts_within line w.
Proof.
  unfold in_line, starts_within.
  destruct (span w) as [wsp|]; [|by split].
  destruct (line_spans line) as [[|s ss]|]; simpl default.
  - rewrite Exists_nil. by split.
  - rewrite existsb_exists, Exists_exists. unfold starts_in.
    split; intros (s' & Hin & Hs); exists s';
      (split; [by apply list_elem_of_In | lia]).
  - rewrite Exists_nil. by split.
Qed.

Lemma line_words_filter `{∀ line w, Decision (starts_within line w)} ws line :
  line_words ws line = filter (starts_within line) ws.
Proof.
  unfold line_words. induction ws as [|w ws IH]; [done|].
  simpl. rewrite filter_cons, IH.
  destruct (in_line line w) eqn:Hin, (decide (starts_within line w)) as [Hs|Hs];
    try done.
  - by apply in_line_spec in Hin.
  - apply in_line_spec in Hs. congruence.
Qed.

End lines.

(** C2 as stated fails: a line whose words are one Handwritten word and
    one word without a span has a Handwritten fraction of one half, yet
    it is tagged HW, since the word without a span is not counted. *)
Lemma line_tag_leaves_out_spanless :
  map (λ w, word_is_handwritten w (classify_spans (styles doc_unknown)))
      [w_hello; w_there] = [Handwritten; Unknown] ∧
  gt_half (Z.of_nat 1 # Pos.of_nat (or_1 2)) = false ∧
  length (line_words [w_hello; w_there] line_hello) = 1%nat ∧
  tag (line_report (classify_spans (styles doc_unknown))
         [w_hello; w_there] line_hello) = TagHW.
Proof. repeat split; by vm_compute. Qed.

(** C2 (as the code has it): the tag of a line is Handwritten exactly
    when the number of Handwritten-verdict words among the words counted
    for the line (the words of the page with a span that starts inside a
    span of the line), divided by [max(n, 1)] for the number [n] of these
    words, is strictly above one half, and Printed otherwise; two of four
    gives Printed, three of five Handwritten. *)
Theorem line_tag_majority `{PyNum}
    (span_map : SpanMap) (ws : list DocumentWord) (line : DocumentLine) :
  let hw := length (with_verdict span_map Handwritten (line_words ws line)) in
  let n := length (line_words ws line) in
  (tag (line_report span_map ws line) = TagHW
   ↔ (1 # 2 < inject_Z (Z.of_nat hw) / inject_Z (Z.of_nat (Nat.max n 1)))%Q) ∧
  (tag (line_report span_map ws line) = TagPR
   ↔ ¬ (1 # 2 < inject_Z (Z.of_nat hw) / inject_Z (Z.of_nat (Nat.max n 1)))%Q) ∧
  (hw = 2%nat → n = 4%nat → tag (line_report span_map ws line) = TagPR) ∧
  (hw = 3%nat → n = 5%nat → tag (line_report span_map ws line) = TagHW).
Proof.
  intros hw n.
  assert (tag (line_report span_map ws line) = TagHW
          ↔ (1 # 2 < inject_Z (Z.of_nat hw) / inject_Z (Z.of_nat (Nat.max n 1)))%Q)
    as Hhw.
  { rewrite <- gt_half_fraction. unfold line_report. cbv zeta. simpl tag.
    fold (with_verdict span_map Handwritten (line_words ws line)).
    fold hw n. destruct (gt_half _); split; (done || congruence). }
  split; [exact Hhw|]. split.
  - rewrite <- Hhw. apply tag_line_report_PR.
  - split; intros Hh Hn.
    + apply tag_line_report_PR. rewrite tag_line_report. fold hw n. lia.
    + apply tag_line_report. fold hw n. lia.
Qed.

Lemma line_tag_majority_witness :
  length (with_verdict vote_map Handwritten (line_words vote_words line_even)) = 2%nat ∧
  length (with_verdict vote_map Printed (line_words vote_words line_even)) = 2%nat ∧
  tag (line_report vote_map vote_words line_even) = TagPR ∧
  length (with_verdict vote_map Handwritten (line_words vote_words line_odd)) = 3%nat ∧
  length (with_verdict vote_map Printed (line_words vote_words line_odd)) = 2%nat ∧
  tag (line_report vote_map vote_words line_odd) = TagHW.
Proof.
  destruct (line_tag_majority vote_map vote_words line_even) as (_ & _ & Heven & _).
  destruct (line_tag_majority vote_map vote_words line_odd) as (_ & _ & _ & Hodd).
  split; [by vm_compute|]. split; [by vm_compute|].
  split; [apply Heven; by vm_compute|].
  split; [by vm_compute|]. split; [by vm_compute|].
  apply Hodd; by vm_compute.
Defined.

(** C6 as stated fails: the words counted for a line are found by
    comparing offsets, so a word without a span is left out of [n] and of
    the confidence mean, and moving the span of a word moves the word out
    of the line. *)
Lemma line_words_drop_spanless :
  line_words [w_hello; w_there] line_hello = [w_hello] ∧
  span w_there = None ∧
  length (line_words [w_hello; w_there] line_hello) = 1%nat ∧
  line_conf (line_report vote_map [w_hello; w_there] line_hello) = (9 # 10)%Q ∧
  line_words [w_hello_moved; w_there] line_hello = [] ∧
  content w_hello_moved = content w_hello.
Proof. repeat split; by vm_compute. Qed.

(** C6 (as the code has it): the words counted for a line, in [n] and in
    the confidence mean alike, are the words of the page, in page order,
    that have a span starting inside one of the spans of the line; a word
    without a span is never among them. *)
Theorem line_words_by_start_offset `{PyNum}
    (span_map : SpanMap) (ws : list DocumentWord) (line : DocumentLine) :
  line_words ws line = filter (starts_within line) ws ∧
  (∀ w, span w = None → w ∉ line_words ws line) ∧
  line_conf (line_report span_map ws line)
    = mean_or_0 (conf_or_0 <$> filter (starts_within line) ws) ∧
  (tag (line_report span_map ws line) = TagHW
   ↔ Z.of_nat (Nat.max (length (filter (starts_within line) ws)) 1)
     < 2 * Z.of_nat (length (with_verdict span_map Handwritten
                               (filter (starts_within line) ws)))).
Proof.
  rewrite <- line_words_filter. split; [done|]. split; [|split].
  - intros w Hsp Hin. rewrite line_words_filter in Hin.
    apply list_elem_of_filter in Hin as [Hs _].
    unfold starts_within in Hs. by rewrite Hsp in Hs.
  - done.
  - apply tag_line_report.
Qed.

Lemma line_words_by_start_offset_witness :
  line_words vote_words line_even
    = [ mk_word "ab" (Some (mk_span 0 3)) (1 # 1);
        mk_word "cd" (Some (mk_span 4 3)) (1 # 1);
        mk_word "gh" (Some (mk_span 10 3)) (1 # 2);
        mk_word "ij" (Some (mk_span 14 3)) (1 # 2) ].
Proof.
  destruct (line_words_by_start_offset vote_map vote_words line_even) as (-> & _).
  by vm_compute.
Defined.

(** * Page and document statistics *)

Section statistics.
Context `{PN : PyNum}.
Implicit Types (span_map : SpanMap) (page : DocumentPage)
  (ws : list DocumentWord) (t : Totals) (reports : list PageReport).

(** The loop over the words of a page appends to the four lists. *)
Lemma foldl_bucket_word span_map ws (confs : list num) (b : Buckets) :
  foldl (bucket_word span_map) (confs, b) ws
  = (confs ++ map conf_or_0 ws,
     {| hw_words := hw_words b ++ with_verdict span_map Handwritten ws;
        pr_words := pr_words b ++ with_verdict span_map Printed ws;
        unknown_words := unknown_words b ++ with_verdict span_map Unknown ws |}).
Proof.
  revert confs b. induction ws as [|w ws IH]; intros confs b.
  - simpl. rewrite !app_nil_r. by destruct b.
  - change (foldl (bucket_word span_map) (confs, b) (w :: ws))
      with (foldl (bucket_word span_map) (bucket_word span_map (confs, b) w) ws).
    destruct (bucket_word span_map (confs, b) w) as [confs' b'] eqn:Hstep.
    rewrite IH. unfold bucket_word in Hstep.
    unfold with_verdict, Handwritten, Printed, Unknown.
    rewrite !filter_cons.
    destruct (word_is_handwritten w span_map) as [[|]|] eqn:Hv;
      injection Hstep as <- <-; simpl;
      repeat case_decide; try congruence;
      rewrite <- ?app_assoc; done.
Qed.

Lemma page_step_report span_map t reports page :
  page_step span_map (t, reports) page
  = ({| total_words := total_words t + length (default [] (words page));
        total_hw_words :=
          total_hw_words t
          + length (with_verdict span_map Handwritten (default [] (words page)));
        all_confidences :=
          all_confidences t ++ map conf_or_0 (default [] (words page)) |},
     reports ++ [page_report span_map page])%nat.
Proof.
  unfold page_step. cbv zeta. rewrite foldl_bucket_word. done.
Qed.

Lemma foldl_page_step span_map (ps : list DocumentPage) t reports :
  foldl (page_step span_map) (t, reports) ps
  = ({| total_words :=
          total_words t
          + sum_list (map (λ page, length (default [] (words page))) ps);
        total_hw_words :=
          total_hw_words t
          + sum_list (map (λ page, length (with_verdict span_map Handwritten
                                             (default [] (words page)))) ps);
        all_confidences :=
          all_confidences t
          ++ map conf_or_0 (mjoin (map (λ page, default [] (words page)) ps)) |},
     reports ++ map (page_report span_map) ps)%nat.
Proof.
  revert t reports. induction ps as [|page ps IH]; intros t reports.
  - simpl. rewrite !Nat.add_0_r, !app_nil_r. by destruct t.
  - change (foldl (page_step span_map) (t, reports) (page :: ps))
      with (foldl (page_step span_map) (page_step span_map (t, reports) page) ps).
    rewrite page_step_report, IH. simpl.
    rewrite map_app, <- !app_assoc, !Nat.add_assoc. done.
Qed.

Lemma per_page_reports span_map (result : AnalyzeResult) :
  per_page span_map result
  = ({| total_words := sum_list (map rep_words (map (page_report span_map) (pages result)));
        total_hw_words :=
          sum_list (map rep_handwritten (map (page_report span_map) (pages result)));
        all_confidences := map conf_or_0 (all_words result) |},
     map (page_report span_map) (pages result)).
Proof.
  unfold per_page. rewrite foldl_page_step. simpl.
  rewrite !map_map. done.
Qed.

Lemma run_reports (result : AnalyzeResult) :
  out_pages (run result)
  = map (page_report (classify_spans (styles result))) (pages result).
Proof. unfold run. rewrite per_page_reports. done. Qed.

Lemma run_summary (result : AnalyzeResult) :
  out_summary (run result)
  = summary result (per_page (classify_spans (styles result)) result).1.
Proof. unfold run. by destruct (per_page _ _). Qed.

(** Every word of a page is in exactly one of the three page counts. *)
Lemma verdict_counts span_map ws :
  (length (with_verdict span_map Handwritten ws)
   + length (with_verdict span_map Printed ws)
   + length (with_verdict span_map Unknown ws) = length ws)%nat.
Proof.
  unfold with_verdict, Handwritten, Printed, Unknown.
  induction ws as [|w ws IH]; [done|]. rewrite !filter_cons.
  destruct (word_is_handwritten w span_map) as [[|]|];
    repeat case_decide; try congruence; simpl; lia.
Qed.

(** The printed figure of the summary is what is left after the
    handwritten words: the printed and the unclassified words of the
    pages together. *)
Lemma summary_printed_words (result : AnalyzeResult) :
  sum_printed_words (out_summary (run result))
  = Z.of_nat (sum_list (map (λ r, rep_printed r + rep_unclassified r)%nat
                            (out_pages (run result)))).
Proof.
  rewrite run_summary, run_reports, per_page_reports. simpl.
  rewrite !map_map. simpl.
  induction (pages result) as [|page ps IH]; [done|]. simpl.
  pose proof (verdict_counts (classify_spans (styles result))
                (default [] (words page))). lia.
Qed.

End statistics.

(** C7 as stated fails: a word without a verdict is in the printed figure
    of the summary and in no page's printed count. *)
Lemma summary_printed_not_page_sum :
  sum_printed_words (out_summary (run doc_unknown)) = 1 ∧
  sum_list (map rep_printed (out_pages (run doc_unknown))) = 0%nat ∧
  sum_list (map rep_unclassified (out_pages (run doc_unknown))) = 1%nat.
Proof. repeat split; by vm_compute. Qed.

(** C7 (as the code has it): the total and the handwritten word count of
    the summary are the sums of the page counts, and the mean confidence
    of the summary is taken once over the confidences of all words of all
    pages in order, 0 when there is no word. *)
Theorem summary_rollup `{PyNum} (result : AnalyzeResult) :
  sum_total_words (out_summary (run result))
    = Z.of_nat (sum_list (map rep_words (out_pages (run result)))) ∧
  sum_handwritten_words (out_summary (run result))
    = Z.of_nat (sum_list (map rep_handwritten (out_pages (run result)))) ∧
  sum_avg_conf (out_summary (run result))
    = match all_words result with
      | [] => num_zero
      | _ => true_div (py_sum (map conf_or_0 (all_words result)))
                      (length (all_words result))
      end.
Proof.
  rewrite run_summary, run_reports, per_page_reports. simpl.
  split; [done|]. split; [done|].
  unfold mean_or_0. rewrite length_map. by destruct (all_words result).
Qed.

Lemma summary_rollup_witness :
  sum_total_words (out_summary (run doc_uneven)) = 4 ∧
  sum_handwritten_words (out_summary (run doc_uneven)) = 2 ∧
  sum_avg_conf (out_summary (run doc_uneven)) = (1 # 4)%Q ∧
  map rep_page_conf (out_pages (run doc_uneven)) = [(1 # 1)%Q; (0 # 3)%Q].
Proof.
  destruct (summary_rollup doc_uneven) as (-> & -> & ->).
  repeat split; by vm_compute.
Defined.

(** * Strings: splitting and stripping *)

Section strings.
Implicit Types (c : char) (s w cur rest : str) (ws : list str).

Lemma is_space_SP : is_space SP = true.
Proof. reflexivity. Qed.

Lemma split_from_spaceless w cur rest :
  spaceless w → split_from cur (w ++ rest) = split_from (cur ++ w) rest.
Proof.
  intros Hw. revert cur. induction Hw as [|c w Hc Hw IH]; intros cur.
  - by rewrite app_nil_r.
  - simpl. rewrite Hc, IH, <- app_assoc. done.
Qed.

Lemma split_from_space c cur rest :
  is_space c = true → cur ≠ [] →
  split_from cur (c :: rest) = cur :: split_from [] rest.
Proof. intros Hc Hcur. simpl. rewrite Hc. by destruct cur. Qed.

Lemma tokens_nil : tokens [] [].
Proof. by intros rest. Qed.

Lemma tokens_space c : is_space c = true → tokens [c] [].
Proof. intros Hc rest. simpl. by rewrite Hc. Qed.

Lemma tokens_word w c : clean w → is_space c = true → tokens (w ++ [c]) [w].
Proof.
  intros [Hne Hw] Hc rest. rewrite <- app_assoc.
  rewrite split_from_spaceless by done. simpl app.
  by rewrite split_from_space.
Qed.

Lemma tokens_app s1 s2 ws1 ws2 :
  tokens s1 ws1 → tokens s2 ws2 → tokens (s1 ++ s2) (ws1 ++ ws2).
Proof.
  intros H1 H2 rest. by rewrite <- !app_assoc, H1, H2.
Qed.

Lemma tokens_split s ws : tokens s ws → split s = ws.
Proof.
  intros Hs. specialize (Hs []). rewrite !app_nil_r in Hs. exact Hs.
Qed.

Lemma tokens_INDENT : tokens INDENT [].
Proof.
  change INDENT with ([SP] ++ [SP] ++ [SP] ++ [SP]).
  change (@nil str) with (@nil str ++ [] ++ [] ++ []).
  repeat apply tokens_app; by apply tokens_space.
Qed.

Lemma tokens_words ws :
  Forall clean ws → tokens (concat (map (λ w, w ++ [SP]) ws)) ws.
Proof.
  induction 1 as [|w ws Hw Hws IH]; [apply tokens_nil|].
  simpl. apply (tokens_app _ _ [w]); [by apply tokens_word | done].
Qed.

Lemma tokens_render ws : Forall clean ws → tokens (render ws) ws.
Proof.
  intros Hws. apply (tokens_app _ _ []); [apply tokens_INDENT|].
  by apply tokens_words.
Qed.

Lemma tokens_lines (blocks : list (list str)) :
  Forall (Forall clean) blocks →
  tokens (concat (map render blocks)) (mjoin blocks).
Proof.
  induction 1 as [|b blocks Hb Hbs IH]; [apply tokens_nil|].
  simpl. apply tokens_app; [by apply tokens_render | done].
Qed.

(** Splitting what [join] made of clean words gives the words back. *)
Lemma split_join ws : Forall clean ws → split (join [SP] ws) = ws.
Proof.
  induction 1 as [|w ws Hw Hws IH]; [done|].
  destruct ws as [|w' ws].
  - simpl. destruct Hw as [Hne Hw]. unfold split.
    pose proof (split_from_spaceless w [] [] Hw) as Hsplit.
    rewrite app_nil_r in Hsplit. rewrite Hsplit. simpl. by destruct w.
  - change (join [SP] (w :: w' :: ws))
      with (w ++ [SP] ++ join [SP] (w' :: ws)).
    unfold split. rewrite app_assoc.
    rewrite (tokens_word w SP Hw is_space_SP). simpl. f_equal. exact IH.
Qed.

(** [split] returns clean words. *)
Lemma split_from_clean cur s :
  spaceless cur → Forall clean (split_from cur s).
Proof.
  revert cur. induction s as [|c s IH]; intros cur Hcur.
  - simpl. destruct cur; [constructor|].
    constructor; [|constructor]. by split.
  - simpl. destruct (is_space c) eqn:Hc.
    + destruct cur.
      * apply IH. constructor.
      * constructor; [by split|]. apply IH. constructor.
    + apply IH. apply Forall_app. split; [done|]. by constructor.
Qed.

Lemma split_clean s : Forall clean (split s).
Proof. apply split_from_clean. constructor. Qed.

(** Stripping a string with a character that is no white space leaves
    something. *)
Lemma lstrip_keeps s :
  Exists (λ c, is_space c = false) s → Exists (λ c, is_space c = false) (lstrip s).
Proof.
  induction s as [|c s IH]; intros Hs; [done|].
  simpl. destruct (is_space c) eqn:Hc; [|done].
  apply IH. apply Exists_cons in Hs as [Hs|Hs]; [congruence|done].
Qed.

Lemma strip_truthy s :
  Exists (λ c, is_space c = false) s → truthy (strip s) = true.
Proof.
  intros Hs. unfold strip.
  assert (Exists (λ c, is_space c = false) (rev (lstrip (rev (lstrip s))))) as Hr.
  { apply List.Exists_rev, lstrip_keeps, List.Exists_rev. by apply lstrip_keeps. }
  destruct (rev _); [by apply Exists_nil in Hr|done].
Qed.

Lemma render_truthy w ws :
  clean w → truthy (strip (render (ws ++ [w]))) = true.
Proof.
  intros [Hne Hw]. apply strip_truthy. unfold render.
  apply Exists_app. right. rewrite map_app, concat_app. apply Exists_app. right.
  simpl. destruct w as [|c w]; [done|]. apply Exists_cons. left.
  by apply Forall_cons in Hw as [Hc _].
Qed.

Lemma render_snoc ws w : render (ws ++ [w]) = render ws ++ w ++ [SP].
Proof.
  unfold render. rewrite map_app, concat_app. simpl.
  by rewrite app_nil_r.
Qed.

Lemma length_render_snoc ws w :
  length (render (ws ++ [w])) = (length (render ws) + length w + 1)%nat.
Proof. rewrite render_snoc, !length_app. simpl. lia. Qed.

End strings.

(** * Wrapping *)

Section wrapping.
Implicit Types (w : str) (ws cur : list str) (blocks acc : list (list str)).

Lemma render_nil : render [] = INDENT.
Proof. unfold render. simpl concat. by rewrite app_nil_r. Qed.

Lemma render_singleton w : render [w] = INDENT ++ w ++ [SP].
Proof. by rewrite <- (app_nil_l [w]), render_snoc, render_nil. Qed.

Lemma length_INDENT : length INDENT = 4%nat.
Proof. reflexivity. Qed.

Lemma Forall_join_inv {A} (P : A → Prop) (ls : list (list A)) :
  Forall P (mjoin ls) → Forall (Forall P) ls.
Proof.
  induction ls as [|l ls IH]; [constructor|].
  simpl. rewrite Forall_app. intros [Hl Hls]. constructor; auto.
Qed.

Lemma join_snoc {A} (ls : list (list A)) (l : list A) :
  mjoin (ls ++ [l]) = mjoin ls ++ l.
Proof. rewrite join_app. simpl. by rewrite app_nil_r. Qed.

(** One iteration keeps the line a rendered block. *)
Lemma wrap_step_render cur acc w :
  block_ok cur → Forall block_ok acc →
  ∃ cur' acc',
    wrap_step (render cur, map render acc) w = (render cur', map render acc') ∧
    mjoin acc' ++ cur' = mjoin acc ++ cur ++ [w] ∧
    cur' ≠ [] ∧ block_ok cur' ∧ Forall block_ok acc'.
Proof.
  intros Hcur Hacc. unfold wrap_step.
  destruct (Nat.ltb_spec 80 (length (render cur) + length w + 1)) as [Hlong|Hfit].
  - exists [w], (acc ++ [cur]). rewrite map_app, render_singleton. simpl map.
    split; [done|]. split; [by rewrite join_snoc, <- app_assoc|].
    split; [done|]. split; [|apply Forall_app; split; [done | by constructor]].
    destruct (Nat.le_gt_cases (length w) 75) as [Hw|Hw].
    + left. rewrite render_singleton, !length_app, length_INDENT. simpl. lia.
    + right. by exists w.
  - exists (cur ++ [w]), acc. rewrite render_snoc.
    split; [done|]. split; [done|].
    split; [by destruct cur|]. split; [|done].
    left. rewrite length_render_snoc. lia.
Qed.

Lemma foldl_wrap_step ws cur acc :
  block_ok cur → Forall block_ok acc →
  ∃ cur' acc',
    foldl wrap_step (render cur, map render acc) ws
      = (render cur', map render acc') ∧
    mjoin acc' ++ cur' = mjoin acc ++ cur ++ ws ∧
    (cur ≠ [] ∨ ws ≠ [] → cur' ≠ []) ∧ block_ok cur' ∧ Forall block_ok acc'.
Proof.
  revert cur acc. induction ws as [|w ws IH]; intros cur acc Hcur Hacc.
  - exists cur, acc. rewrite app_nil_r.
    split; [done|]. split; [done|]. split; [|done]. by intros [?|?].
  - change (foldl wrap_step (render cur, map render acc) (w :: ws))
      with (foldl wrap_step (wrap_step (render cur, map render acc) w) ws).
    destruct (wrap_step_render cur acc w Hcur Hacc)
      as (cur1 & acc1 & -> & Hjoin1 & Hne1 & Hcur1 & Hacc1).
    destruct (IH cur1 acc1 Hcur1 Hacc1)
      as (cur2 & acc2 & Hfold & Hjoin2 & Hne2 & Hcur2 & Hacc2).
    exists cur2, acc2. split; [done|].
    split; [rewrite Hjoin2, app_assoc, Hjoin1, <- !app_assoc; done|].
    split; [|done]. intros _. apply Hne2. by left.
Qed.

Lemma length_render_ge cur w :
  w ∈ cur → (length w + 5 ≤ length (render cur))%nat.
Proof.
  unfold render. rewrite length_app, length_INDENT.
  induction cur as [|w' cur IH]; intros Hin; [by apply elem_of_nil in Hin|].
  simpl. rewrite !length_app. simpl.
  apply elem_of_cons in Hin as [->|Hin]; [lia|]. specialize (IH Hin). lia.
Qed.

Lemma block_ok_nil : block_ok [].
Proof. left. rewrite render_nil, length_INDENT. lia. Qed.

(** The lines [wrap] prints are rendered blocks that cut the word list
    into consecutive pieces. *)
Lemma wrap_blocks ws :
  Forall clean ws →
  ∃ blocks, wrap ws = map render blocks ∧ mjoin blocks = ws ∧
            Forall block_ok blocks.
Proof.
  intros Hws. destruct ws as [|w0 ws0]; [by exists []|].
  destruct (foldl_wrap_step (w0 :: ws0) [] [] block_ok_nil)
    as (cur & acc & Hfold & Hjoin & Hne & Hcur & Hacc); [constructor|].
  rewrite render_nil in Hfold. simpl in Hjoin.
  unfold wrap. change (@nil str) with (map render []). rewrite Hfold.
  assert (Forall clean cur) as Hclean.
  { rewrite <- Hjoin in Hws. by apply Forall_app in Hws as [_ ?]. }
  destruct cur as [|w pre _] using rev_ind; [destruct Hne; [by right | done]|].
  rewrite render_truthy by (by apply Forall_app in Hclean as [_ [? _]%Forall_cons]).
  exists (acc ++ [pre ++ [w]]). rewrite map_app. split; [done|].
  split; [by rewrite join_snoc|].
  apply Forall_app. split; [done | by constructor].
Qed.

End wrapping.

(** * The transcript of a page *)

Lemma page_transcript_wrap `{PyNum} (span_map : SpanMap) (page : DocumentPage) :
  page_transcript span_map page = wrap (words_list span_map page).
Proof.
  unfold page_transcript, words_list.
  by destruct (hw_on_page span_map page).
Qed.

(** C8 as stated fails: a word whose content holds white space is split
    in two. *)
Lemma transcript_splits_spaced_word :
  map content (hw_on_page hw_0_5 page_york) = [py "New York"] ∧
  split (concat (page_transcript hw_0_5 page_york)) = [py "New"; py "York"].
Proof. split; by vm_compute. Qed.

(** C8 (as the code has it): when the content of every Handwritten word
    of the page is non-empty and free of white space, splitting the
    concatenation of the page's transcript lines gives the contents of
    the Handwritten words in page order; a page without Handwritten words
    has no transcript line. *)
Theorem transcript_word_integrity `{PyNum}
    (span_map : SpanMap) (page : DocumentPage) :
  Forall (λ w, clean (content w)) (hw_on_page span_map page) →
  split (concat (page_transcript span_map page))
    = map content (hw_on_page span_map page) ∧
  (hw_on_page span_map page = [] → page_transcript span_map page = []).
Proof.
  intros Hclean. split.
  - rewrite page_transcript_wrap. unfold words_list.
    assert (Forall clean (map content (hw_on_page span_map page))) as Hws
      by (by apply Forall_fmap).
    rewrite split_join by done.
    destruct (wrap_blocks _ Hws) as (blocks & -> & Hjoin & _).
    rewrite <- Hjoin in Hws |- *. apply tokens_split, tokens_lines.
    by apply Forall_join_inv.
  - intros Hnone. unfold page_transcript. by rewrite Hnone.
Qed.

Lemma transcript_word_integrity_witness :
  page_transcript hw_0_10 page_hello = [py "    Hello World "] ∧
  split (concat (page_transcript hw_0_10 page_hello)) = [py "Hello"; py "World"].
Proof.
  split; [by vm_compute|].
  destruct (transcript_word_integrity hw_0_10 page_hello) as [-> _].
  - change (hw_on_page hw_0_10 page_hello)
      with [ mk_word "Hello" (Some (mk_span 0 5)) (95 # 100);
             mk_word "World" (Some (mk_span 6 5)) (9 # 10) ].
    repeat (apply List.Forall_cons;
            [split; [done | by repeat (apply List.Forall_cons; [reflexivity|])]|]).
    apply List.Forall_nil.
  - by vm_compute.
Defined.

(** The printed lines, indent and closing space counted: a line has at
    most 80 characters unless it holds a single word of more than 75. *)
Lemma printed_line_width `{PyNum} (span_map : SpanMap) (page : DocumentPage) :
  ∀ line, line ∈ page_transcript span_map page →
    (length line ≤ 80)%nat ∨
    ∃ w, w ∈ words_list span_map page ∧ line = INDENT ++ w ++ [SP] ∧
         (75 < length w)%nat.
Proof.
  rewrite page_transcript_wrap.
  destruct (wrap_blocks (words_list span_map page) (split_clean _))
    as (blocks & -> & Hjoin & Hok).
  rewrite Forall_forall in Hok.
  intros line Hline.
  apply list_elem_of_fmap in Hline as (block & -> & Hblock).
  destruct (Hok block Hblock) as [Hfit|(w & -> & Hw)]; [by left|].
  right. exists w. rewrite render_singleton. split; [|done].
  rewrite <- Hjoin. apply list_elem_of_join. exists [w].
  split; [by left | done].
Qed.

(** ** The text of a line *)

Section line_text.
Implicit Types (c : char) (s x pre post : str) (block : list str).

Lemma lstrip_spaces pre s :
  Forall (λ c, is_space c = true) pre → lstrip (pre ++ s) = lstrip s.
Proof. induction 1 as [|c pre Hc Hpre IH]; [done|]. simpl. by rewrite Hc. Qed.

Lemma lstrip_head c s : is_space c = false → lstrip (c :: s) = c :: s.
Proof. intros Hc. simpl. by rewrite Hc. Qed.

(** Stripping removes the white space around a text that begins and ends
    with other characters. *)
Lemma strip_padded pre x post :
  Forall (λ c, is_space c = true) pre →
  Forall (λ c, is_space c = true) post →
  (∃ c t, x = c :: t ∧ is_space c = false) →
  (∃ c t, rev x = c :: t ∧ is_space c = false) →
  strip (pre ++ x ++ post) = x.
Proof.
  intros Hpre Hpost (c & t & Hx & Hc) (c' & t' & Hrx & Hc').
  unfold strip. rewrite lstrip_spaces by done.
  rewrite Hx at 1. change ((c :: t) ++ post) with (c :: (t ++ post)).
  rewrite lstrip_head by done. change (c :: (t ++ post)) with ((c :: t) ++ post).
  rewrite <- Hx, rev_app_distr, lstrip_spaces by (by apply List.Forall_rev).
  rewrite Hrx, lstrip_head by done. by rewrite <- Hrx, rev_involutive.
Qed.

Lemma concat_words block :
  block ≠ [] → concat (map (λ w, w ++ [SP]) block) = join [SP] block ++ [SP].
Proof.
  induction block as [|w block IH]; [done|]. intros _.
  destruct block as [|w' block].
  - simpl. by rewrite app_nil_r.
  - change (join [SP] (w :: w' :: block))
      with (w ++ [SP] ++ join [SP] (w' :: block)).
    change (concat (map (λ w, w ++ [SP]) (w :: w' :: block)))
      with ((w ++ [SP]) ++ concat (map (λ w, w ++ [SP]) (w' :: block))).
    rewrite IH by done. by rewrite <- !app_assoc.
Qed.

Lemma clean_head w : clean w → ∃ c t, w = c :: t ∧ is_space c = false.
Proof.
  intros [Hne Hw]. destruct w as [|c t]; [done|].
  exists c, t. split; [done|]. by apply Forall_cons in Hw as [? _].
Qed.

Lemma clean_last w : clean w → ∃ c t, rev w = c :: t ∧ is_space c = false.
Proof.
  intros [Hne Hw]. destruct w as [|c t _] using rev_ind; [done|].
  rewrite rev_app_distr. exists c, (rev t). split; [done|].
  by apply Forall_app in Hw as [_ [? _]%Forall_cons].
Qed.

Lemma join_head block :
  Forall clean block → block ≠ [] →
  ∃ c t, join [SP] block = c :: t ∧ is_space c = false.
Proof.
  intros Hb Hne. destruct block as [|w block]; [done|].
  apply Forall_cons in Hb as [Hw _].
  destruct (clean_head w Hw) as (c & t & -> & Hc).
  destruct block as [|w' block]; [by exists c, t|].
  change (join [SP] ((c :: t) :: w' :: block))
    with (c :: (t ++ [SP] ++ join [SP] (w' :: block))).
  by eexists _, _.
Qed.

Lemma join_last block :
  Forall clean block → block ≠ [] →
  ∃ c t, rev (join [SP] block) = c :: t ∧ is_space c = false.
Proof.
  induction block as [|w block IH]; [done|]. intros Hb _.
  apply Forall_cons in Hb as [Hw Hb].
  destruct block as [|w' block]; [by apply clean_last|].
  change (join [SP] (w :: w' :: block))
    with (w ++ [SP] ++ join [SP] (w' :: block)).
  destruct (IH Hb) as (c & t & Hrev & Hc); [done|].
  rewrite !rev_app_distr, Hrev. by eexists _, _.
Qed.

(** The text of the line of a block: its words with one space between. *)
Lemma strip_render block :
  Forall clean block → strip (render block) = join [SP] block.
Proof.
  intros Hb. destruct (decide (block = [])) as [->|Hne]; [done|].
  unfold render. rewrite concat_words by done.
  apply strip_padded.
  - by repeat constructor.
  - by repeat constructor.
  - by apply join_head.
  - by apply join_last.
Qed.

Lemma length_join_le block :
  (length (join [SP] block) ≤ length (render block))%nat.
Proof.
  destruct (decide (block = [])) as [->|Hne]; [simpl; lia|].
  unfold render. rewrite concat_words by done. rewrite !length_app. lia.
Qed.

End line_text.

(** C9 as stated fails: a word whose content holds white space is cut
    across two lines, the break falling inside the word. *)
Lemma transcript_breaks_inside_word :
  map content (hw_on_page hw_0_10 page_york_after_long)
    = [repeat 97%N 70; py "New York"] ∧
  map strip (page_transcript hw_0_10 page_york_after_long)
    = [repeat 97%N 70 ++ py " New"; py "York"].
Proof. split; by vm_compute. Qed.

(** C9 (as the code has it): the text of a transcript line, the printed
    line without its indent and closing space, has at most 80 characters
    unless it is a single piece of the joined contents that is longer
    than 80; when the contents of the Handwritten words of the page are
    non-empty and free of white space, the texts of the lines are the
    contents of consecutive blocks of these words with single spaces
    between, and a word longer than 80 characters is alone in its
    block. *)
Theorem transcript_line_width `{PyNum}
    (span_map : SpanMap) (page : DocumentPage) :
  (∀ line, line ∈ page_transcript span_map page →
     (length (strip line) ≤ 80)%nat ∨
     ∃ w, w ∈ words_list span_map page ∧ strip line = w ∧ (80 < length w)%nat) ∧
  (Forall (λ w, clean (content w)) (hw_on_page span_map page) →
   ∃ blocks,
     map strip (page_transcript span_map page) = map (join [SP]) blocks ∧
     mjoin blocks = map content (hw_on_page span_map page) ∧
     ∀ block w, block ∈ blocks → w ∈ block → (80 < length w)%nat → block = [w]).
Proof.
  rewrite page_transcript_wrap.
  destruct (wrap_blocks (words_list span_map page) (split_clean _))
    as (blocks & -> & Hjoin & Hok).
  assert (Forall (Forall clean) blocks) as Hclean.
  { apply Forall_join_inv. rewrite Hjoin. apply split_clean. }
  rewrite Forall_forall in Hok, Hclean. split.
  - intros line Hline.
    apply list_elem_of_fmap in Hline as (block & -> & Hblock).
    rewrite strip_render by (by apply Hclean).
    destruct (Hok block Hblock) as [Hfit|(w & -> & Hw)].
    + left. pose proof (length_join_le block). lia.
    + destruct (Nat.le_gt_cases (length w) 80) as [Hle|Hgt]; [by left|].
      right. exists w. split; [|done].
      rewrite <- Hjoin. apply list_elem_of_join. exists [w].
      split; [by left | done].
  - intros Hcontents. exists blocks.
    assert (words_list span_map page = map content (hw_on_page span_map page))
      as Hwords by (apply split_join; by apply Forall_fmap).
    split; [|split; [by rewrite Hjoin|]].
    + rewrite map_map. apply map_ext_in. intros block Hblock.
      apply strip_render, Hclean. by apply list_elem_of_In.
    + intros block w Hblock Hin Hw.
      destruct (Hok block Hblock) as [Hfit|(w' & -> & _)].
      * pose proof (length_render_ge block w Hin). lia.
      * apply list_elem_of_singleton in Hin. by subst.
Qed.

Lemma transcript_line_width_witness :
  ∃ blocks,
    map strip (page_transcript hw_0_10 page_hello) = map (join [SP]) blocks ∧
    mjoin blocks = [py "Hello"; py "World"] ∧
    map strip (page_transcript hw_0_10 page_hello) = [py "Hello World"].
Proof.
  destruct (transcript_line_width hw_0_10 page_hello) as (_ & Hblocks).
  destruct Hblocks as (blocks & Htext & Hjoin & _).
  - change (hw_on_page hw_0_10 page_hello)
      with [ mk_word "Hello" (Some (mk_span 0 5)) (95 # 100);
             mk_word "World" (Some (mk_span 6 5)) (9 # 10) ].
    repeat (apply List.Forall_cons;
            [split; [done | by repeat (apply List.Forall_cons; [reflexivity|])]|]).
    apply List.Forall_nil.
  - exists blocks. split; [exact Htext|]. split; [rewrite Hjoin; by vm_compute|].
    by vm_compute.
Defined.

(** * Further properties of style indexing *)

Section indexing_more.
Implicit Types (l : list DocumentStyle) (o : Z) (b : bool).

Lemma annotated_app b l1 l2 o :
  annotated b (l1 ++ l2) o ↔ annotated b l1 o ∨ annotated b l2 o.
Proof.
  unfold annotated. split.
  - intros (st & sp & Hst & Hrest). apply elem_of_app in Hst as [Hst|Hst];
      [left|right]; eauto.
  - intros [(st & sp & Hst & Hrest)|(st & sp & Hst & Hrest)];
      exists st, sp; (split; [apply elem_of_app; auto | done]).
Qed.

Lemma annotated_same_elements b l1 l2 o :
  (∀ st, st ∈ l1 ↔ st ∈ l2) → annotated b l1 o ↔ annotated b l2 o.
Proof.
  intros Hsame. unfold annotated.
  split; intros (st & sp & Hst & Hrest); exists st, sp;
    (split; [by apply Hsame | done]).
Qed.

Lemma add_span_union (t : gset Z) (sp : DocumentSpan) :
  add_span t sp
  = t ∪ list_to_set (range (sp_offset sp) (sp_offset sp + sp_length sp)).
Proof.
  apply set_eq. intros o.
  rewrite elem_of_add_span, elem_of_union, elem_of_list_to_set, elem_of_range.
  done.
Qed.

Lemma size_add_span (t : gset Z) (sp : DocumentSpan) :
  (size (add_span t sp) ≤ size t + Z.to_nat (sp_length sp))%nat.
Proof.
  rewrite add_span_union, size_union_alt.
  apply Nat.add_le_mono_l.
  etrans; [apply subseteq_size; intros o [Ho _]%elem_of_difference; exact Ho|].
  rewrite size_list_to_set by apply NoDup_range.
  unfold range. rewrite length_seqZ. lia.
Qed.

Lemma size_add_span_list (t : gset Z) (raw : list DocumentSpan) :
  (size (foldl add_span t raw) ≤ size t + total_length raw)%nat.
Proof.
  revert t. induction raw as [|sp raw IH]; intros t; [simpl; lia|].
  simpl foldl. etrans; [apply IH|].
  pose proof (size_add_span t sp).
  unfold total_length in *. simpl. lia.
Qed.

Lemma regions_le l :
  (length (filter (λ s, is_handwritten s = Some true) l)
   + length (filter (λ s, is_handwritten s = Some false) l) ≤ length l)%nat.
Proof.
  induction l as [|st l IH]; [simpl; lia|].
  rewrite !filter_cons.
  destruct (is_handwritten st) as [[|]|]; repeat case_decide;
    try congruence; cbn [length]; lia.
Qed.

End indexing_more.

(** X1: indexing a concatenation of two annotation lists gives, set by
    set, the union of what each list gives. *)
Theorem classify_spans_app (l1 l2 : list DocumentStyle) :
  handwritten (classify_spans (Some (l1 ++ l2)))
    = handwritten (classify_spans (Some l1)) ∪ handwritten (classify_spans (Some l2)) ∧
  printed (classify_spans (Some (l1 ++ l2)))
    = printed (classify_spans (Some l1)) ∪ printed (classify_spans (Some l2)).
Proof.
  split; apply set_eq; intros o; rewrite elem_of_union.
  - rewrite !(elem_of_classify_spans _ true). apply annotated_app.
  - rewrite !(elem_of_classify_spans _ false). apply annotated_app.
Qed.

(** X2: the map depends on which annotations are in the list, not on
    their order or on how often one is repeated. *)
Theorem classify_spans_same_elements (l1 l2 : list DocumentStyle) :
  (∀ st, st ∈ l1 ↔ st ∈ l2) →
  classify_spans (Some l1) = classify_spans (Some l2).
Proof.
  intros Hsame. apply SpanMap_eq; apply set_eq; intros o.
  - rewrite !(elem_of_classify_spans _ true). by apply annotated_same_elements.
  - rewrite !(elem_of_classify_spans _ false). by apply annotated_same_elements.
Qed.

Lemma classify_spans_same_elements_witness :
  classify_spans (Some tie_styles_shuffled) = classify_spans (Some tie_styles).
Proof.
  apply classify_spans_same_elements. intros st.
  unfold tie_styles_shuffled, tie_styles.
  rewrite !elem_of_cons, !elem_of_nil. tauto.
Defined.

(** X3: the style section reports handwriting exactly when some
    handwritten annotation has a span of positive length; with styles
    present there is always a report, and the handwritten character count
    is the number of distinct covered offsets, at most the total length of
    the handwritten spans. *)
Theorem handwriting_detected_iff
    (st0 : DocumentStyle) (l : list DocumentStyle) :
  ∃ r, style_report (Some (st0 :: l)) (classify_spans (Some (st0 :: l))) = Some r ∧
       (handwriting_detected r = true
        ↔ ∃ st sp, st ∈ st0 :: l ∧ is_handwritten st = Some true ∧
                   sp ∈ default [] (spans st) ∧ 0 < sp_length sp) ∧
       (hw_chars r ≤ total_length (raw_spans true (st0 :: l)))%nat ∧
       (pr_chars r ≤ total_length (raw_spans false (st0 :: l)))%nat ∧
       (hw_regions r + pr_regions r ≤ length (st0 :: l))%nat.
Proof.
  remember (classify_spans (Some (st0 :: l))) as m eqn:Hm.
  eexists. split; [reflexivity|].
  cbn [hw_chars pr_chars handwriting_detected hw_regions pr_regions]. subst m.
  split; [|split; [|split]].
  - rewrite Nat.ltb_lt. split.
    + intros Hpos. apply size_pos_elem_of in Hpos as [o Ho].
      apply (elem_of_classify_spans _ true) in Ho as (st & sp & Hst & Hb & Hsp & Hc).
      exists st, sp. unfold covers in Hc. repeat split; try done. lia.
    + intros (st & sp & Hst & Hb & Hsp & Hlen).
      assert (sp_offset sp ∈ handwritten (classify_spans (Some (st0 :: l)))) as Hin.
      { apply (elem_of_classify_spans _ true). exists st, sp.
        repeat split; try done; unfold covers; lia. }
      destruct (size (handwritten (classify_spans (Some (st0 :: l))))) eqn:Hsize;
        [|lia].
      apply size_empty_iff in Hsize. by apply Hsize in Hin.
  - rewrite handwritten_classify_spans.
    etrans; [apply size_add_span_list|]. rewrite size_empty. simpl default. lia.
  - rewrite printed_classify_spans.
    etrans; [apply size_add_span_list|]. rewrite size_empty. simpl default. lia.
  - apply regions_le.
Qed.

Lemma handwriting_detected_iff_witness :
  ∃ r, style_report (Some overlap_styles) (classify_spans (Some overlap_styles)) = Some r ∧
       handwriting_detected r = true ∧ hw_chars r = 10%nat ∧
       total_length (raw_spans true overlap_styles) = 14%nat.
Proof.
  destruct (handwriting_detected_iff
              (mk_style (Some true) [mk_span 0 5; mk_span 3 5])
              [mk_style (Some true) [mk_span 8 2; mk_span 2 2]])
    as (r & Hr & Hdet & _).
  exists r. split; [exact Hr|]. split.
  - apply Hdet. exists (mk_style (Some true) [mk_span 0 5; mk_span 3 5]), (mk_span 0 5).
    repeat split; try done; [by left | by left].
  - injection Hr as <-. split; by vm_compute.
Defined.

(** * Further properties of word verdicts *)

Section verdicts_more.
Context `{PN : PyNum}.
Implicit Types (word : DocumentWord) (m : SpanMap) (sp : DocumentSpan).

Lemma count_in_pos (s : gset Z) a b :
  (0 < count_in s a b)%nat → ∃ o, a ≤ o < b ∧ o ∈ s.
Proof.
  unfold count_in. intros Hpos.
  destruct (filter (λ o, o ∈ s) (range a b)) as [|o l] eqn:Hf; [simpl in Hpos; lia|].
  assert (o ∈ filter (λ o, o ∈ s) (range a b)) as Ho by (rewrite Hf; by left).
  apply list_elem_of_filter in Ho as [Hin Hr]. apply elem_of_range in Hr. eauto.
Qed.

Lemma count_in_none (s : gset Z) a b :
  (∀ o, a ≤ o < b → o ∉ s) → count_in s a b = 0%nat.
Proof.
  intros Hnone. destruct (count_in s a b) eqn:Hc; [done|].
  destruct (count_in_pos s a b) as (o & Ho & Hin); [lia|]. by apply Hnone in Hin.
Qed.

Lemma filter_all {A} (P : A → Prop) `{∀ x, Decision (P x)} (l : list A) :
  Forall P l → filter P l = l.
Proof.
  induction 1 as [|x l Hx Hl IH]; [done|].
  by rewrite filter_cons_True, IH.
Qed.

Lemma count_in_all (s : gset Z) a b :
  (∀ o, a ≤ o < b → o ∈ s) → count_in s a b = Z.to_nat (b - a).
Proof.
  intros Hall. unfold count_in.
  rewrite filter_all; [unfold range; apply length_seqZ|].
  apply Forall_forall. intros o Ho. apply Hall. by apply elem_of_range.
Qed.

Lemma not_handwritten_without_coverage word m :
  handwritten m = ∅ → word_is_handwritten word m ≠ Some true.
Proof.
  intros Hempty. unfold word_is_handwritten.
  destruct (span word) as [sp|]; [|done]. cbv zeta.
  rewrite (count_in_none (handwritten m))
    by (intros o _; rewrite Hempty; apply not_elem_of_empty).
  by destruct (count_in (printed m) _ _).
Qed.

End verdicts_more.

(** X4: exchanging the handwritten and the printed set exchanges the
    verdicts Handwritten and Printed and keeps Unknown. *)
Theorem word_is_handwritten_swap `{PyNum} (word : DocumentWord) (m : SpanMap) :
  word_is_handwritten word (swap_map m) = negb <$> word_is_handwritten word m.
Proof.
  unfold word_is_handwritten, swap_map. simpl.
  destruct (span word) as [sp|]; [|done]. cbv zeta.
  destruct (Nat.ltb_spec (count_in (printed m) (sp_offset sp) (sp_offset sp + sp_length sp))
                         (count_in (handwritten m) (sp_offset sp) (sp_offset sp + sp_length sp))),
           (Nat.ltb_spec (count_in (handwritten m) (sp_offset sp) (sp_offset sp + sp_length sp))
                         (count_in (printed m) (sp_offset sp) (sp_offset sp + sp_length sp)));
    (done || lia).
Qed.

(** X5: a word is Handwritten (Printed) only if the handwritten (printed)
    set holds an offset of its span, so a span without offsets gives
    Unknown; a word whose span has offsets, all of them handwritten and
    none printed, is Handwritten. *)
Theorem verdict_coverage `{PyNum}
    (word : DocumentWord) (sp : DocumentSpan) (m : SpanMap) :
  span word = Some sp →
  (word_is_handwritten word m = Handwritten
   → ∃ o, covers sp o ∧ o ∈ handwritten m) ∧
  (word_is_handwritten word m = Printed
   → ∃ o, covers sp o ∧ o ∈ printed m) ∧
  (sp_length sp ≤ 0 → word_is_handwritten word m = Unknown) ∧
  (0 < sp_length sp →
   (∀ o, covers sp o → o ∈ handwritten m ∧ o ∉ printed m) →
   word_is_handwritten word m = Handwritten).
Proof.
  intros Hsp. unfold word_is_handwritten, Handwritten, Printed, Unknown.
  rewrite Hsp. cbv zeta.
  set (hw := count_in (handwritten m) _ _). set (pr := count_in (printed m) _ _).
  split; [|split; [|split]].
  - destruct (Nat.ltb_spec pr hw) as [Hlt|Hge];
      [|by destruct (hw <? pr)%nat].
    intros _. apply count_in_pos. unfold hw in Hlt. lia.
  - destruct (Nat.ltb_spec pr hw) as [Hlt|Hge]; [done|].
    destruct (Nat.ltb_spec hw pr) as [Hlt|Hge']; [|done].
    intros _. apply count_in_pos. unfold pr in Hlt. lia.
  - intros Hlen.
    assert (hw = 0%nat) as ->.
    { apply count_in_none. intros o Ho. lia. }
    assert (pr = 0%nat) as ->.
    { apply count_in_none. intros o Ho. lia. }
    done.
  - intros Hlen Hall.
    assert (hw = Z.to_nat (sp_length sp)) as ->.
    { unfold hw. rewrite count_in_all by (intros o Ho; by apply Hall).
      f_equal. lia. }
    assert (pr = 0%nat) as ->.
    { apply count_in_none. intros o Ho. by apply Hall. }
    destruct (Nat.ltb_spec 0 (Z.to_nat (sp_length sp))); [done|lia].
Qed.

Lemma verdict_coverage_witness :
  word_is_handwritten w_inside vote_map = Handwritten ∧
  word_is_handwritten w_empty_span vote_map = Unknown.
Proof.
  destruct (verdict_coverage w_inside (mk_span 2 3) vote_map eq_refl)
    as (_ & _ & _ & Hfull).
  destruct (verdict_coverage w_empty_span (mk_span 2 0) vote_map eq_refl)
    as (_ & _ & Hnone & _).
  split; [|apply Hnone; simpl; lia].
  apply Hfull; [simpl; lia|].
  intros o Ho. unfold covers in Ho. simpl in Ho.
  assert (o = 2 ∨ o = 3 ∨ o = 4) as Hcases by lia.
  destruct Hcases as [Ho'|[Ho'|Ho']]; subst o;
    (split; [by vm_compute | by vm_compute]).
Defined.

(** * Further properties of lines, pages and the summary *)

Section run_more.
Context `{PN : PyNum}.
Implicit Types (m : SpanMap) (ws : list DocumentWord) (line : DocumentLine)
  (page : DocumentPage) (result : AnalyzeResult).

Lemma with_verdict_no_coverage m ws :
  handwritten m = ∅ → with_verdict m Handwritten ws = [].
Proof.
  intros Hempty. unfold with_verdict.
  induction ws as [|w ws IH]; [done|].
  rewrite filter_cons_False; [done|].
  by apply not_handwritten_without_coverage.
Qed.

Lemma run_transcript result :
  out_transcript (run result)
  = handwritten_text (classify_spans (styles result)) result
      (per_page (classify_spans (styles result)) result).1.
Proof. unfold run. by destruct (per_page _ _). Qed.

Lemma hw_on_page_with_verdict m page :
  hw_on_page m page = with_verdict m Handwritten (default [] (words page)).
Proof. done. Qed.

Lemma omap_transcript_block_nil m (ps : list DocumentPage) :
  Forall (λ page, hw_on_page m page = []) ps →
  omap (transcript_block m) ps = [].
Proof.
  induction 1 as [|page ps Hp Hps IH]; [done|].
  simpl. unfold transcript_block at 1. by rewrite Hp.
Qed.

Lemma sum_list_zero {A} (f : A → nat) (l : list A) :
  sum_list (map f l) = 0%nat ↔ Forall (λ x, f x = 0%nat) l.
Proof.
  induction l as [|x l IH]; simpl.
  - split; [constructor|done].
  - rewrite Forall_cons, <- IH. lia.
Qed.

Lemma line_words_nil ws line :
  default [] (line_spans line) = [] ∨ Forall (λ w, span w = None) ws →
  line_words ws line = [].
Proof.
  intros Hcase. rewrite line_words_filter.
  induction ws as [|w ws IH]; [done|].
  rewrite filter_cons_False.
  - apply IH. destruct Hcase as [?|Hws]; [by left|right].
    by apply Forall_cons in Hws as [_ ?].
  - unfold starts_within. intros Hs. destruct Hcase as [Hnil|Hws].
    + rewrite Hnil in Hs. destruct (span w); [by apply Exists_nil in Hs|done].
    + apply Forall_cons in Hws as [Hw _]. by rewrite Hw in Hs.
Qed.

End run_more.

(** X6: when the handwritten set is empty, no page reports a handwritten
    word, every line is tagged PR, the handwritten text is not printed,
    neither heading nor block, and the summary counts no handwritten
    word and gives all words as printed. *)
Theorem no_coverage_no_handwriting `{PyNum} (result : AnalyzeResult) :
  handwritten (classify_spans (styles result)) = ∅ →
  Forall (λ rep, rep_handwritten rep = 0%nat ∧
                 Forall (λ lr, tag lr = TagPR) (rep_line_reports rep))
         (out_pages (run result)) ∧
  out_transcript (run result) = None ∧
  sum_handwritten_words (out_summary (run result)) = 0 ∧
  sum_printed_words (out_summary (run result))
    = sum_total_words (out_summary (run result)).
Proof.
  intros Hempty.
  set (m := classify_spans (styles result)) in *.
  assert (Forall (λ rep, rep_handwritten rep = 0%nat ∧
                   Forall (λ lr, tag lr = TagPR) (rep_line_reports rep))
                 (out_pages (run result))) as Hpages.
  { rewrite run_reports. fold m. apply Forall_fmap, Forall_forall.
    intros page _. simpl. rewrite with_verdict_no_coverage by done.
    split; [done|]. apply Forall_fmap, Forall_forall. intros line _. simpl.
    apply tag_line_report_PR. rewrite tag_line_report.
    rewrite with_verdict_no_coverage by done. simpl. lia. }
  assert (total_hw_words (per_page m result).1 = 0%nat) as Hzero.
  { rewrite per_page_reports. simpl. rewrite map_map. apply sum_list_zero.
    apply Forall_forall. intros page _. simpl.
    by rewrite with_verdict_no_coverage. }
  split; [exact Hpages|]. split; [|split].
  - rewrite run_transcript. fold m. unfold handwritten_text. by rewrite Hzero.
  - rewrite run_summary. fold m. simpl. by rewrite Hzero.
  - rewrite run_summary. fold m. simpl. rewrite Hzero. lia.
Qed.

Lemma no_coverage_no_handwriting_witness :
  out_transcript
    (run {| pages := pages doc_unknown;
            styles := Some [mk_style (Some false) [mk_span 0 5]] |}) = None ∧
  sum_printed_words
    (out_summary
       (run {| pages := pages doc_unknown;
               styles := Some [mk_style (Some false) [mk_span 0 5]] |})) = 2.
Proof.
  destruct (no_coverage_no_handwriting
              {| pages := pages doc_unknown;
                 styles := Some [mk_style (Some false) [mk_span 0 5]] |})
    as (_ & Htr & _ & Hpr); [by vm_compute|].
  split; [exact Htr|]. rewrite Hpr. by vm_compute.
Defined.

(** X7: there is one page report per page, in page order, and in every
    page report the handwritten, printed and unclassified counts add up
    to the word count. *)
Theorem page_counts_partition `{PyNum} (result : AnalyzeResult) :
  map rep_page_number (out_pages (run result)) = map page_number (pages result) ∧
  Forall (λ rep, (rep_handwritten rep + rep_printed rep + rep_unclassified rep
                  = rep_words rep)%nat)
         (out_pages (run result)).
Proof.
  rewrite run_reports. split.
  - rewrite map_map. done.
  - apply Forall_fmap, Forall_forall. intros page _. simpl.
    apply verdict_counts.
Qed.

(** X8: in the summary the handwritten and the printed figure add up to
    the total; the printed figure is never negative and counts the
    printed and the unclassified words of all pages. *)
Theorem summary_printed_figure `{PyNum} (result : AnalyzeResult) :
  sum_handwritten_words (out_summary (run result))
    + sum_printed_words (out_summary (run result))
    = sum_total_words (out_summary (run result)) ∧
  0 ≤ sum_printed_words (out_summary (run result)) ∧
  sum_printed_words (out_summary (run result))
    = Z.of_nat (sum_list (map (λ rep, rep_printed rep + rep_unclassified rep)%nat
                              (out_pages (run result)))).
Proof.
  pose proof (summary_printed_words result) as Hpr.
  split; [|split; [|exact Hpr]].
  - rewrite run_summary. simpl. lia.
  - rewrite Hpr. lia.
Qed.

(** X9: a line is tagged HW exactly when its Handwritten words outnumber
    its Printed and Unknown words together; a line that gets no word (it
    has no span, or no word of the page has one) is tagged PR with
    confidence 0. *)
Theorem line_vote `{PyNum}
    (m : SpanMap) (ws : list DocumentWord) (line : DocumentLine) :
  (tag (line_report m ws line) = TagHW
   ↔ (length (with_verdict m Printed (line_words ws line))
      + length (with_verdict m Unknown (line_words ws line))
      < length (with_verdict m Handwritten (line_words ws line)))%nat) ∧
  (default [] (line_spans line) = [] ∨ Forall (λ w, span w = None) ws →
   line_words ws line = [] ∧
   tag (line_report m ws line) = TagPR ∧
   line_conf (line_report m ws line) = num_zero).
Proof.
  split.
  - rewrite tag_line_report.
    pose proof (verdict_counts m (line_words ws line)). lia.
  - intros Hcase. pose proof (line_words_nil ws line Hcase) as Hnil.
    split; [done|]. split.
    + apply tag_line_report_PR. rewrite tag_line_report, Hnil. simpl. lia.
    + unfold line_report. cbv zeta. simpl line_conf. by rewrite Hnil.
Qed.

Lemma line_vote_witness :
  tag (line_report vote_map [w_there] line_hello) = TagPR ∧
  line_conf (line_report vote_map [w_there] line_hello) = 0%Q.
Proof.
  destruct (line_vote vote_map [w_there] line_hello) as (_ & Hnone).
  destruct Hnone as (_ & Htag & Hconf).
  - right. by repeat constructor.
  - split; [exact Htag | exact Hconf].
Defined.

(** X10: the text shown for a line is the line's content when that has at
    most 90 characters; a longer content is cut to its first 90
    characters followed by a space and an ellipsis, 92 characters in
    all. *)
Theorem display_text_cut `{PyNum}
    (m : SpanMap) (ws : list DocumentWord) (line : DocumentLine) :
  ((length (line_content line) ≤ 90)%nat →
   display_text (line_report m ws line) = line_content line) ∧
  ((90 < length (line_content line))%nat →
   display_text (line_report m ws line) = take 90 (line_content line) ++ ELLIPSIS ∧
   length (display_text (line_report m ws line)) = 92%nat) ∧
  (length (display_text (line_report m ws line)) ≤ 92)%nat ∧
  take 90 (display_text (line_report m ws line)) = take 90 (line_content line).
Proof.
  unfold line_report. cbv zeta. simpl display_text.
  destruct (Nat.ltb_spec 90 (length (line_content line))) as [Hlong|Hshort].
  - split; [intros; lia|]. split; [|split].
    + intros _. split; [done|]. rewrite length_app, length_take_le by lia.
      reflexivity.
    + rewrite length_app, length_take_le by lia. reflexivity.
    + rewrite take_app_le by (rewrite length_take_le; lia).
      rewrite take_take. f_equal.
  - split; [intros _; by apply take_ge|]. split; [intros; lia|]. split.
    + rewrite length_take. lia.
    + by rewrite take_take.
Qed.

Lemma display_text_cut_witness :
  length (display_text (line_report vote_map vote_words line_wide)) = 92%nat ∧
  display_text (line_report vote_map vote_words line_hello) = py "Hello there".
Proof.
  destruct (display_text_cut vote_map vote_words line_wide) as (_ & Hlong & _).
  destruct (display_text_cut vote_map vote_words line_hello) as (Hshort & _).
  destruct Hlong as [_ Hlen]; [vm_compute; lia|].
  split; [exact Hlen | apply Hshort; vm_compute; lia].
Defined.

(** * Further properties of the handwritten text *)

Section wrapping_more.
Implicit Types (w : str) (ws cur : list str) (blocks acc : list (list str)).

Lemma greedy_snoc_new acc cur w :
  greedy (acc ++ [cur]) →
  (80 < length (render cur) + length w + 1)%nat →
  greedy (acc ++ [cur; [w]]).
Proof.
  intros Hg Hlong. induction acc as [|a acc IH].
  - simpl. split; [by exists w, []|done].
  - destruct acc as [|a' acc]; simpl in *.
    + destruct Hg as [Ha _]. split; [exact Ha|]. split; [by exists w, []|done].
    + destruct Hg as [Ha Hg]. split; [exact Ha|]. by apply IH.
Qed.

Lemma greedy_snoc_grow acc w0 tl w :
  greedy (acc ++ [w0 :: tl]) → greedy (acc ++ [(w0 :: tl) ++ [w]]).
Proof.
  intros Hg. induction acc as [|a acc IH]; [done|].
  destruct acc as [|a' acc]; simpl in *.
  - destruct Hg as [(w' & tl' & [= <- <-] & Hlong) _].
    split; [|done]. by exists w0, (tl ++ [w]).
  - destruct Hg as [Ha Hg]. split; [exact Ha|]. by apply IH.
Qed.

Lemma first_fits_snoc acc cur b :
  first_fits (acc ++ [cur]) → first_fits ((acc ++ [cur]) ++ [b]).
Proof. by destruct acc. Qed.

(** One iteration keeps the breaks greedy. *)
Lemma wrap_step_greedy cur acc w :
  greedy (acc ++ [cur]) → (cur = [] → acc = []) → first_fits (acc ++ [cur]) →
  ∃ cur' acc',
    wrap_step (render cur, map render acc) w = (render cur', map render acc') ∧
    mjoin acc' ++ cur' = mjoin acc ++ cur ++ [w] ∧
    cur' ≠ [] ∧ greedy (acc' ++ [cur']) ∧ first_fits (acc' ++ [cur']).
Proof.
  intros Hg Hnil Hfirst. unfold wrap_step.
  destruct (Nat.ltb_spec 80 (length (render cur) + length w + 1)) as [Hlong|Hfit].
  - exists [w], (acc ++ [cur]). rewrite map_app, render_singleton. simpl map.
    split; [done|]. split; [by rewrite join_snoc, <- app_assoc|].
    split; [done|]. split.
    + rewrite <- app_assoc. by apply greedy_snoc_new.
    + by apply first_fits_snoc.
  - exists (cur ++ [w]), acc. rewrite render_snoc.
    split; [done|]. split; [done|]. split; [by destruct cur|].
    destruct cur as [|w0 tl].
    + rewrite (Hnil eq_refl). split; [done|].
      change (length (render ([] ++ [w])) ≤ 80)%nat.
      rewrite length_render_snoc. lia.
    + split; [by apply greedy_snoc_grow|].
      destruct acc; [|done].
      change (length (render ((w0 :: tl) ++ [w])) ≤ 80)%nat.
      rewrite length_render_snoc. lia.
Qed.

Lemma foldl_wrap_step_greedy ws cur acc :
  greedy (acc ++ [cur]) → (cur = [] → acc = []) → first_fits (acc ++ [cur]) →
  ∃ cur' acc',
    foldl wrap_step (render cur, map render acc) ws
      = (render cur', map render acc') ∧
    mjoin acc' ++ cur' = mjoin acc ++ cur ++ ws ∧
    (cur ≠ [] ∨ ws ≠ [] → cur' ≠ []) ∧
    greedy (acc' ++ [cur']) ∧ first_fits (acc' ++ [cur']).
Proof.
  revert cur acc. induction ws as [|w ws IH]; intros cur acc Hg Hnil Hfirst.
  - exists cur, acc. rewrite app_nil_r.
    split; [done|]. split; [done|]. split; [by intros [?|?]|done].
  - change (foldl wrap_step (render cur, map render acc) (w :: ws))
      with (foldl wrap_step (wrap_step (render cur, map render acc) w) ws).
    destruct (wrap_step_greedy cur acc w Hg Hnil Hfirst)
      as (cur1 & acc1 & -> & Hjoin1 & Hne1 & Hg1 & Hfirst1).
    destruct (IH cur1 acc1 Hg1) as (cur2 & acc2 & Hfold & Hjoin2 & Hne2 & Hg2 & Hfirst2);
      [done | done |].
    exists cur2, acc2. split; [done|].
    split; [rewrite Hjoin2, app_assoc, Hjoin1, <- !app_assoc; done|].
    split; [|done]. intros _. apply Hne2. by left.
Qed.

(** The blocks of [wrap] are cut greedily, and the first one fits. *)
Lemma wrap_greedy ws :
  Forall clean ws →
  ∃ blocks, wrap ws = map render blocks ∧ mjoin blocks = ws ∧
            greedy blocks ∧ first_fits blocks.
Proof.
  intros Hws. destruct ws as [|w0 ws0]; [by exists []|].
  destruct (foldl_wrap_step_greedy (w0 :: ws0) [] [])
    as (cur & acc & Hfold & Hjoin & Hne & Hg & Hfirst); [done | done | |].
  { change (length (render []) ≤ 80)%nat. rewrite render_nil, length_INDENT. lia. }
  rewrite render_nil in Hfold. simpl in Hjoin.
  unfold wrap. change (@nil str) with (map render []). rewrite Hfold.
  assert (Forall clean cur) as Hclean.
  { rewrite <- Hjoin in Hws. by apply Forall_app in Hws as [_ ?]. }
  destruct cur as [|w pre _] using rev_ind; [destruct Hne; [by right | done]|].
  rewrite render_truthy by (by apply Forall_app in Hclean as [_ [? _]%Forall_cons]).
  exists (acc ++ [pre ++ [w]]). rewrite map_app. split; [done|].
  split; [by rewrite join_snoc|]. done.
Qed.

Lemma greedy_lookup blocks (i : nat) (b1 b2 : list str) :
  greedy blocks → blocks !! i = Some b1 → blocks !! S i = Some b2 →
  ∃ w tl, b2 = w :: tl ∧ (80 < length (render b1) + length w + 1)%nat.
Proof.
  revert i. induction blocks as [|b blocks IH]; intros i Hg H1 H2; [done|].
  destruct blocks as [|b' blocks]; [done|].
  destruct Hg as [Hb Hg]. destruct i as [|i].
  - simpl in H1, H2. by injection H1 as <-; injection H2 as <-.
  - apply (IH i); done.
Qed.

Lemma render_blank cur : render cur = INDENT → cur = [].
Proof.
  destruct cur as [|w tl]; [done|]. intros Heq.
  apply (f_equal length) in Heq. rewrite length_INDENT in Heq.
  pose proof (length_render_ge (w :: tl) w). 
  assert (w ∈ w :: tl) as Hin by (by left). specialize (H Hin). lia.
Qed.

End wrapping_more.

Section transcript_more.
Context `{PN : PyNum}.
Implicit Types (m : SpanMap) (page : DocumentPage) (result : AnalyzeResult).

Lemma blk_words_omap m (ps : list DocumentPage) :
  map blk_words (omap (transcript_block m) ps)
  = filter (λ n, n ≠ 0%nat) (map (λ page, length (hw_on_page m page)) ps).
Proof.
  induction ps as [|page ps IH]; [done|].
  cbn [map omap list_omap]. rewrite filter_cons, <- IH.
  unfold transcript_block at 1.
  destruct (hw_on_page m page) as [|w hw] eqn:Hhw.
  - by rewrite decide_False by (intros Hne; by apply Hne).
  - by rewrite decide_True.
Qed.

Lemma sum_list_filter_nonzero (l : list nat) :
  sum_list (filter (λ n, n ≠ 0%nat) l) = sum_list l.
Proof.
  induction l as [|n l IH]; [done|].
  rewrite filter_cons. case_decide; simpl; lia.
Qed.

Lemma per_page_total_hw result :
  total_hw_words (per_page (classify_spans (styles result)) result).1
  = sum_list (map (λ page, length (hw_on_page (classify_spans (styles result)) page))
                  (pages result)).
Proof. rewrite per_page_reports. simpl. by rewrite map_map. Qed.

End transcript_more.

(** X11: the heading of the handwritten text is printed exactly when
    some page has a Handwritten word.  When it is printed it is followed
    by at least one block: one for every page with a Handwritten word,
    in page order, whose word count is the page's handwritten count of
    the page report; the counts add up to the handwritten figure of the
    summary.  When it is not printed no page has a block and that figure
    is 0. *)
Theorem transcript_blocks `{PyNum} (result : AnalyzeResult) :
  match out_transcript (run result) with
  | None =>
      omap (transcript_block (classify_spans (styles result))) (pages result) = [] ∧
      sum_handwritten_words (out_summary (run result)) = 0
  | Some blocks =>
      blocks ≠ [] ∧
      blocks
        = omap (transcript_block (classify_spans (styles result))) (pages result) ∧
      map blk_words blocks
        = filter (λ n, n ≠ 0%nat) (map rep_handwritten (out_pages (run result))) ∧
      Z.of_nat (sum_list (map blk_words blocks))
        = sum_handwritten_words (out_summary (run result))
  end.
Proof.
  set (m := classify_spans (styles result)).
  pose proof (per_page_total_hw result) as Htotal. fold m in Htotal.
  assert (map blk_words (omap (transcript_block m) (pages result))
          = filter (λ n, n ≠ 0%nat) (map rep_handwritten (out_pages (run result))))
    as Hwords.
  { rewrite run_reports, blk_words_omap, map_map. done. }
  assert (Z.of_nat (total_hw_words (per_page m result).1)
          = sum_handwritten_words (out_summary (run result))) as Hsum
    by (by rewrite run_summary).
  rewrite run_transcript. fold m. unfold handwritten_text.
  destruct (Nat.ltb_spec 0 (total_hw_words (per_page m result).1)) as [Hpos|Hzero].
  - assert (sum_list (map blk_words (omap (transcript_block m) (pages result)))
            = total_hw_words (per_page m result).1) as Hblk.
    { rewrite blk_words_omap, sum_list_filter_nonzero. by rewrite Htotal. }
    split; [|split; [done|split; [exact Hwords|]]].
    + intros Hnil. rewrite Hnil in Hblk. simpl in Hblk. lia.
    + by rewrite Hblk.
  - split; [|rewrite <- Hsum; lia].
    apply omap_transcript_block_nil.
    assert (sum_list (map (λ page, length (hw_on_page m page)) (pages result)) = 0%nat)
      as Hnone by lia.
    rewrite sum_list_zero, Forall_forall in Hnone.
    apply Forall_forall. intros page Hin. specialize (Hnone page Hin).
    by destruct (hw_on_page m page).
Qed.

(** X12: the lines of a page's transcript are the rendered blocks of its
    word list, and a new line is begun only for a word that did not fit:
    the line before, that word and a space together exceed 80
    characters. *)
Theorem transcript_greedy `{PyNum} (m : SpanMap) (page : DocumentPage) :
  ∃ blocks,
    page_transcript m page = map render blocks ∧
    mjoin blocks = words_list m page ∧
    ∀ (i : nat) b1 b2,
      blocks !! i = Some b1 → blocks !! S i = Some b2 →
      ∃ w tl, b2 = w :: tl ∧ (80 < length (render b1) + length w + 1)%nat.
Proof.
  rewrite page_transcript_wrap.
  destruct (wrap_greedy (words_list m page) (split_clean _))
    as (blocks & Hwrap & Hjoin & Hg & _).
  exists blocks. split; [done|]. split; [done|].
  intros i b1 b2. by apply greedy_lookup.
Qed.

Lemma transcript_greedy_witness :
  ∃ blocks, page_transcript hw_0_5 page_long_first = map render blocks ∧
            mjoin blocks = [repeat 97%N 76; py "ab"].
Proof.
  destruct (transcript_greedy hw_0_5 page_long_first) as (blocks & Hb & Hj & _).
  exists blocks. split; [exact Hb|]. rewrite Hj. by vm_compute.
Defined.

(** X13: the first line of a page's transcript is blank (the indent
    alone) exactly when the first word has more than 75 characters; no
    later line is blank. *)
Theorem transcript_blank_line `{PyNum}
    (m : SpanMap) (page : DocumentPage) (w : str) (ws : list str) :
  words_list m page = w :: ws →
  (head (page_transcript m page) = Some INDENT ↔ (75 < length w)%nat) ∧
  (∀ i : nat, page_transcript m page !! S i ≠ Some INDENT).
Proof.
  intros Hws. rewrite page_transcript_wrap.
  destruct (wrap_greedy (words_list m page) (split_clean _))
    as (blocks & -> & Hjoin & Hg & Hfirst).
  rewrite Hws in Hjoin. split.
  - destruct blocks as [|b0 blocks]; [done|].
    change (head (map render (b0 :: blocks))) with (Some (render b0)). split.
    + intros Hblank%(inj Some). apply render_blank in Hblank as ->.
      destruct blocks as [|b1 blocks]; [done|].
      destruct Hg as [(w' & tl & -> & Hlong) _].
      simpl in Hjoin. injection Hjoin as -> _.
      rewrite render_nil, length_INDENT in Hlong. lia.
    + intros Hlong. f_equal. destruct b0 as [|w' tl]; [apply render_nil|].
      simpl in Hjoin. injection Hjoin as -> _.
      unfold first_fits in Hfirst.
      pose proof (length_render_ge (w :: tl) w) as Hge.
      assert (w ∈ w :: tl) as Hin by (by left). specialize (Hge Hin). lia.
  - intros i Hline. rewrite list_lookup_fmap in Hline.
    destruct (blocks !! S i) as [b2|] eqn:Hb2; [|done].
    apply (inj Some) in Hline. apply render_blank in Hline as ->.
    destruct (lookup_lt_is_Some_2 blocks i) as [b1 Hb1].
    { apply lookup_lt_Some in Hb2. lia. }
    destruct (greedy_lookup blocks i b1 [] Hg Hb1 Hb2) as (? & ? & ? & _). done.
Qed.

Lemma transcript_blank_line_witness :
  head (page_transcript hw_0_5 page_long_first) = Some INDENT ∧
  length (page_transcript hw_0_5 page_long_first) = 3%nat.
Proof.
  destruct (transcript_blank_line hw_0_5 page_long_first
              (repeat 97%N 76) [py "ab"]) as [Hfirst _]; [by vm_compute|].
  split; [apply Hfirst; vm_compute; lia | by vm_compute].
Defined.

(** * [confidence_bar] *)

(** X14: for a width that is not negative the bar has at least [width]
    characters, and exactly [width] when [int(score * width)] lies
    between 0 and [width]; then the full blocks come first, as many as
    that integer. *)
Theorem confidence_bar_length `{PyNumOps} (score : num) (width : Z) :
  0 ≤ width →
  width ≤ Z.of_nat (length (confidence_bar score width)) ∧
  (Z.of_nat (length (confidence_bar score width)) = width
   ↔ 0 ≤ int_mul score width ≤ width) ∧
  (0 ≤ int_mul score width ≤ width →
   length (filter (λ c, c = FULL_BLOCK) (confidence_bar score width))
     = Z.to_nat (int_mul score width) ∧
   take (Z.to_nat (int_mul score width)) (confidence_bar score width)
     = replicate (Z.to_nat (int_mul score width)) FULL_BLOCK).
Proof.
  intros Hwidth. unfold confidence_bar, str_mul. cbv zeta.
  set (filled := int_mul score width).
  rewrite length_app, !length_replicate.
  split; [lia|]. split; [lia|]. intros Hfilled. split.
  - rewrite (filter_app (λ c, c = FULL_BLOCK)). rewrite filter_all by (by apply Forall_replicate).
    rewrite length_app, length_replicate.
    assert (filter (λ c, c = FULL_BLOCK)
              (replicate (Z.to_nat (width - filled)) LIGHT_SHADE) = []) as ->; [|simpl; lia].
    induction (Z.to_nat (width - filled)) as [|n IH]; [done|].
    simpl. by rewrite filter_cons_False.
  - rewrite take_app_le by (rewrite length_replicate; lia).
    apply take_ge. rewrite length_replicate. lia.
Qed.

Lemma confidence_bar_length_witness :
  length (@confidence_bar QNum QNumOps ((95 # 100)%Q : @num QNum) 20) = 20%nat ∧
  length (@confidence_bar QNum QNumOps ((3 # 2)%Q : @num QNum) 20) = 30%nat.
Proof.
  destruct (@confidence_bar_length QNum QNumOps ((95 # 100)%Q : @num QNum) 20)
    as (_ & Hlen & _); [lia|].
  split; [|by vm_compute].
  apply Nat2Z.inj. apply Hlen. by vm_compute.
Defined.

(** * The font section *)

Section fonts_more.
Context `{PN : PyNum}.
Implicit Types (s : FontStyle) (fs : list FontStyle)
  (seen : gset (str * str * str)) (out new : list FontLine)
  (k : str * str * str).

Lemma foldl_font_step fs seen out :
  ∃ new,
    (foldl font_step (seen, out) fs).2 = out ++ new ∧
    NoDup (map fl_key new) ∧
    (∀ k, k ∈ map fl_key new ↔ (k ∉ seen) ∧ k ∈ map font_key fs) ∧
    (∀ line, line ∈ new → ∃ s, line = font_line s ∧ first_with_key seen fs s).
Proof.
  revert seen out. induction fs as [|s fs IH]; intros seen out.
  - exists []. simpl. rewrite app_nil_r. split; [done|].
    split; [constructor|]. split.
    + intros k. rewrite elem_of_nil. tauto.
    + intros line Hin. by apply elem_of_nil in Hin.
  - change (foldl font_step (seen, out) (s :: fs))
      with (foldl font_step (font_step (seen, out) s) fs).
    unfold font_step at 2. destruct (decide (font_key s ∈ seen)) as [Hseen|Hnew].
    + destruct (IH seen out) as (new & Hout & Hdup & Hkeys & Hfirst).
      exists new. split; [done|]. split; [done|]. split.
      * intros k. rewrite Hkeys. simpl. rewrite elem_of_cons.
        split; [tauto|]. intros [Hk [->|Hin]]; [done|tauto].
      * intros line Hin. destruct (Hfirst line Hin)
          as (s' & -> & pre & post & -> & Hk & Hpre).
        exists s'. split; [done|]. exists (s :: pre), post.
        split; [done|]. split; [done|]. intros s'' Hin'.
        apply elem_of_cons in Hin' as [->|Hin']; [congruence|by apply Hpre].
    + destruct (IH ({[font_key s]} ∪ seen) (out ++ [font_line s]))
        as (new & Hout & Hdup & Hkeys & Hfirst).
      exists (font_line s :: new). rewrite Hout, <- app_assoc.
      split; [done|]. split; [|split].
      * simpl. constructor; [|done]. rewrite Hkeys.
        rewrite not_elem_of_union, not_elem_of_singleton. tauto.
      * intros k. simpl. rewrite !elem_of_cons, Hkeys.
        rewrite not_elem_of_union, not_elem_of_singleton.
        destruct (decide (k = font_key s)) as [->|Hne]; [tauto|]. tauto.
      * intros line Hin. apply elem_of_cons in Hin as [->|Hin].
        { exists s. split; [done|]. exists [], fs. split; [done|].
          split; [done|]. intros s' Hin'. by apply elem_of_nil in Hin'. }
        destruct (Hfirst line Hin) as (s' & -> & pre & post & -> & Hk & Hpre).
        apply not_elem_of_union in Hk as [Hk1 Hk2].
        apply not_elem_of_singleton in Hk1.
        exists s'. split; [done|]. exists (s :: pre), post.
        split; [done|]. split; [done|]. intros s'' Hin'.
        apply elem_of_cons in Hin' as [->|Hin']; [congruence|by apply Hpre].
Qed.

End fonts_more.

(** X15: without styles the font section reports that there is no style
    data, and with styles of which none has a font style or weight that
    none was detected; otherwise it prints at least one line, no two
    lines with the same font, weight and style, one line for each such
    triple that occurs, and the line of a triple carries the confidence
    of the first style that has it. *)
Theorem font_details_distinct `{PyNum} (styles : option (list FontStyle)) :
  match font_details styles with
  | NoStyleData => default [] styles = []
  | NoFontStyles =>
      default [] styles ≠ [] ∧ Forall (λ s, has_font s = false) (default [] styles)
  | FontLines out =>
      out ≠ [] ∧
      NoDup (map fl_key out) ∧
      (∀ k, k ∈ map fl_key out
            ↔ ∃ s, s ∈ default [] styles ∧ has_font s = true ∧ font_key s = k) ∧
      (∀ line, line ∈ out →
         ∃ pre s post,
           List.filter has_font (default [] styles) = pre ++ s :: post ∧
           line = font_line s ∧
           ∀ s', s' ∈ pre → font_key s' ≠ font_key s)
  end.
Proof.
  destruct styles as [[|s0 l]|]; [done| |done].
  unfold font_details. simpl default.
  destruct (List.filter has_font (s0 :: l)) as [|s fs] eqn:Hfilter.
  - split; [done|]. apply Forall_forall. intros s Hin.
    destruct (has_font s) eqn:Hs; [|done].
    assert (In s (List.filter has_font (s0 :: l))) as Hin'
      by (apply filter_In; split; [by apply list_elem_of_In|done]).
    rewrite Hfilter in Hin'. done.
  - destruct (foldl_font_step (s :: fs) ∅ []) as (new & Hout & Hdup & Hkeys & Hfirst).
    rewrite Hout. simpl app. split; [|split; [done|split]].
    + intros ->. destruct (Hkeys (font_key s)) as [_ Hk].
      assert (font_key s ∈ map fl_key []) as Hin
        by (apply Hk; split; [apply not_elem_of_empty | by left]).
      by apply elem_of_nil in Hin.
    + intros k. rewrite Hkeys, <- Hfilter. split.
      * intros [_ Hk]. apply list_elem_of_fmap in Hk as (s' & -> & Hin).
        apply list_elem_of_In, filter_In in Hin as [Hin Hs'].
        exists s'. split; [by apply list_elem_of_In|done].
      * intros (s' & Hin & Hs' & <-). split; [apply not_elem_of_empty|].
        apply list_elem_of_fmap. exists s'. split; [done|].
        apply list_elem_of_In, filter_In. split; [by apply list_elem_of_In|done].
    + intros line Hin. destruct (Hfirst line Hin) as (s' & -> & pre & post & Heq & _ & Hpre).
      exists pre, s', post. done.
Qed.

Lemma font_details_distinct_witness :
  ∃ out, font_details (Some font_samples) = FontLines out ∧
         NoDup (map fl_key out) ∧
         map fl_key out = [ (py "Arial", py "bold", py "normal");
                            (py "unknown", py "normal", py "italic") ].
Proof.
  pose proof (font_details_distinct (Some font_samples)) as Hd.
  destruct (font_details (Some font_samples)) as [| |out] eqn:Hfd.
  - vm_compute in Hfd. discriminate.
  - vm_compute in Hfd. discriminate.
  - exists out. split; [done|]. destruct Hd as (_ & Hdup & _).
    split; [exact Hdup|]. vm_compute in Hfd. injection Hfd as <-. reflexivity.
Defined.

(** * The language section *)

Section languages_more.
Context `{PO : PyNumOps}.
Implicit Types (d : LangSummary) (k : str) (v info : LangInfo)
  (lang : DocumentLanguage) (l : list DocumentLanguage).

Lemma dict_get_set d k v k' :
  dict_get (dict_set d k v) k' = if decide (k' = k) then Some v else dict_get d k'.
Proof.
  induction d as [|[k0 v0] d IH]; simpl.
  - by destruct (decide (k' = k)).
  - destruct (decide (k = k0)) as [->|Hne]; simpl.
    + by destruct (decide (k' = k0)).
    + rewrite IH. destruct (decide (k' = k0)) as [->|?]; [|done].
      by rewrite decide_False by congruence.
Qed.

Lemma elem_of_keys_dict_set d k v k' :
  k' ∈ map fst (dict_set d k v) ↔ k' = k ∨ k' ∈ map fst d.
Proof.
  induction d as [|[k0 v0] d IH]; simpl.
  - rewrite list_elem_of_singleton, elem_of_nil. tauto.
  - destruct (decide (k = k0)) as [->|Hne]; simpl; rewrite !elem_of_cons.
    + tauto.
    + rewrite IH. tauto.
Qed.

Lemma NoDup_dict_set d k v :
  NoDup (map fst d) → NoDup (map fst (dict_set d k v)).
Proof.
  induction d as [|[k0 v0] d IH]; simpl; intros Hd.
  - constructor; [apply not_elem_of_nil|constructor].
  - apply NoDup_cons in Hd as [Hk0 Hd].
    destruct (decide (k = k0)) as [->|Hne]; simpl.
    + by constructor.
    + constructor; [|by apply IH].
      rewrite elem_of_keys_dict_set. intros [?|?]; [congruence|done].
Qed.

Lemma dict_get_None d k : dict_get d k = None ↔ k ∉ map fst d.
Proof.
  induction d as [|[k0 v0] d IH]; simpl.
  - split; [intros _; apply not_elem_of_nil|done].
  - rewrite not_elem_of_cons. destruct (decide (k = k0)) as [->|Hne].
    + split; [done|]. intros [? _]. done.
    + rewrite IH. tauto.
Qed.

Lemma dict_get_elem_of d k v :
  NoDup (map fst d) → (k, v) ∈ d ↔ dict_get d k = Some v.
Proof.
  induction d as [|[k0 v0] d IH]; simpl; intros Hd.
  - split; [intros []%elem_of_nil|done].
  - apply NoDup_cons in Hd as [Hk0 Hd]. rewrite elem_of_cons.
    destruct (decide (k = k0)) as [->|Hne].
    + split; [|intros [= ->]; by left].
      intros [[= ->]|Hin]; [done|]. exfalso. apply Hk0.
      apply list_elem_of_fmap. by exists (k0, v).
    + rewrite <- IH by done. split; [|auto]. intros [[= ? ?]|?]; [done|done].
Qed.

Lemma lang_step_set d lang :
  lang_step d lang
  = dict_set d (locale lang)
      (add_lang (default zero_info (dict_get d (locale lang))) lang).
Proof. unfold lang_step. by destruct (dict_get d (locale lang)). Qed.

(** What the loop leaves under a key: the item it found there, updated
    with the entries of that locale in order. *)
Lemma dict_get_foldl_lang_step l d k :
  dict_get (foldl lang_step d l) k
  = match for_locale k l with
    | [] => dict_get d k
    | fl => Some (foldl add_lang (default zero_info (dict_get d k)) fl)
    end.
Proof.
  revert d. induction l as [|lang l IH]; intros d; [done|].
  change (foldl lang_step d (lang :: l)) with (foldl lang_step (lang_step d lang) l).
  rewrite IH, lang_step_set, dict_get_set. unfold for_locale.
  rewrite filter_cons.
  destruct (decide (locale lang = k)) as [<-|Hne].
  - rewrite decide_True by done. simpl.
    by destruct (filter _ l).
  - by rewrite decide_False by congruence.
Qed.

Lemma NoDup_foldl_lang_step l d :
  NoDup (map fst d) → NoDup (map fst (foldl lang_step d l)).
Proof.
  revert d. induction l as [|lang l IH]; intros d Hd; [done|].
  simpl. apply IH. rewrite lang_step_set. by apply NoDup_dict_set.
Qed.

Lemma sum_counts_dict_set d k v :
  NoDup (map fst d) →
  (sum_list (map (λ x, li_count x.2) (dict_set d k v))
   + li_count (default zero_info (dict_get d k))
   = sum_list (map (λ x, li_count x.2) d) + li_count v)%nat.
Proof.
  induction d as [|[k0 v0] d IH]; simpl; intros Hd; [lia|].
  apply NoDup_cons in Hd as [Hk0 Hd].
  destruct (decide (k = k0)) as [->|Hne]; simpl; [lia|].
  specialize (IH Hd). lia.
Qed.

Lemma sum_counts_foldl_lang_step l d :
  NoDup (map fst d) →
  sum_list (map (λ x, li_count x.2) (foldl lang_step d l))
  = (sum_list (map (λ x, li_count x.2) d) + span_total l)%nat.
Proof.
  revert d. induction l as [|lang l IH]; intros d Hd.
  - unfold span_total. simpl. lia.
  - change (foldl lang_step d (lang :: l)) with (foldl lang_step (lang_step d lang) l).
    rewrite IH by (rewrite lang_step_set; by apply NoDup_dict_set).
    rewrite lang_step_set.
    pose proof (sum_counts_dict_set d (locale lang)
      (add_lang (default zero_info (dict_get d (locale lang))) lang) Hd) as Hs.
    unfold span_total, add_lang in *. simpl in *. lia.
Qed.

Lemma foldl_add_lang info fl :
  li_count (foldl add_lang info fl) = (li_count info + span_total fl)%nat ∧
  li_max_confidence (foldl add_lang info fl)
  = foldl py_max (li_max_confidence info) (map lang_confidence fl).
Proof.
  revert info. induction fl as [|lang fl IH]; intros info.
  - unfold span_total. simpl. split; [lia|done].
  - simpl foldl. destruct (IH (add_lang info lang)) as [-> ->].
    unfold span_total, add_lang. simpl. split; [lia|done].
Qed.

(** Insertion keeps the items and the order by count. *)
Lemma insert_item_perm (x : str * LangInfo) d : insert_item x d ≡ₚ x :: d.
Proof.
  induction d as [|y d IH]; simpl; [done|].
  destruct (li_count y.2 <=? li_count x.2)%nat; [done|].
  rewrite IH. apply Permutation_swap.
Qed.

Lemma sorted_items_perm d : sorted_items d ≡ₚ d.
Proof.
  induction d as [|x d IH]; simpl; [done|].
  by rewrite insert_item_perm, IH.
Qed.

Lemma insert_item_sorted (x : str * LangInfo) d :
  StronglySorted count_desc d → StronglySorted count_desc (insert_item x d).
Proof.
  induction 1 as [|y d Hd IH Hy]; simpl.
  - repeat constructor.
  - destruct (Nat.leb_spec (li_count y.2) (li_count x.2)) as [Hle|Hgt].
    + constructor; [by constructor|]. constructor; [done|].
      eapply Forall_impl; [exact Hy|]. unfold count_desc. intros z Hz. lia.
    + constructor; [done|].
      rewrite insert_item_perm. constructor; [|done]. unfold count_desc. lia.
Qed.

Lemma sorted_items_sorted d : StronglySorted count_desc (sorted_items d).
Proof.
  induction d as [|x d IH]; simpl; [constructor|]. by apply insert_item_sorted.
Qed.

End languages_more.

(** X16: without languages the language section has no line; otherwise
    it has one line for each locale that occurs, and the line of a locale
    carries the number of spans of all entries of that locale and the
    maximum, taken entry by entry from 0, of their confidences. *)
Theorem language_report_items `{PyNumOps}
    (languages : option (list DocumentLanguage)) :
  match language_report languages with
  | None => default [] languages = []
  | Some out =>
      NoDup (map fst out) ∧
      (∀ k, k ∈ map fst out
            ↔ ∃ lang, lang ∈ default [] languages ∧ locale lang = k) ∧
      (∀ k info, (k, info) ∈ out →
         li_count info = span_total (for_locale k (default [] languages)) ∧
         li_max_confidence info
           = best_confidence (for_locale k (default [] languages)))
  end.
Proof.
  destruct languages as [[|lang0 l0]|]; [done| |done].
  unfold language_report. simpl default.
  set (l := lang0 :: l0). set (d := foldl lang_step [] l).
  assert (NoDup (map fst d)) as Hd by (apply NoDup_foldl_lang_step; constructor).
  assert (∀ k, dict_get d k
               = match for_locale k l with
                 | [] => None
                 | fl => Some (foldl add_lang zero_info fl)
                 end) as Hget.
  { intros k. unfold d. by rewrite dict_get_foldl_lang_step. }
  pose proof (sorted_items_perm d) as Hperm.
  split; [|split].
  - by rewrite Hperm.
  - intros k. rewrite Hperm. split.
    + intros Hin. destruct (dict_get d k) as [info|] eqn:Hk;
        [|by apply dict_get_None in Hk].
      rewrite Hget in Hk. destruct (for_locale k l) as [|lang fl] eqn:Hfl; [done|].
      assert (lang ∈ for_locale k l) as Hlang by (rewrite Hfl; by left).
      apply list_elem_of_filter in Hlang as [? ?]. by exists lang.
    + intros (lang & Hin & Hk).
      destruct (decide (k ∈ map fst d)) as [?|Hnot]; [done|].
      apply dict_get_None in Hnot. rewrite Hget in Hnot.
      assert (lang ∈ for_locale k l) as Hlang by (by apply list_elem_of_filter).
      destruct (for_locale k l); [by apply elem_of_nil in Hlang|done].
  - intros k info Hin. rewrite Hperm in Hin.
    apply dict_get_elem_of in Hin; [|done]. rewrite Hget in Hin.
    destruct (for_locale k l) as [|lang fl]; [done|].
    apply (inj Some) in Hin. subst info.
    destruct (foldl_add_lang zero_info (lang :: fl)) as [Hcount Hmax].
    split; [exact Hcount | exact Hmax].
Qed.

Lemma language_report_items_witness :
  ∃ out, @language_report QNum QNumOps (Some lang_samples) = Some out ∧
         NoDup (map fst out) ∧
         map (λ x, (x.1, li_count x.2)) out = [(py "fr", 3%nat); (py "en", 2%nat)].
Proof.
  pose proof (@language_report_items QNum QNumOps (Some lang_samples)) as Hitems.
  destruct (@language_report QNum QNumOps (Some lang_samples)) as [out|] eqn:Hrep.
  - exists out. split; [done|]. destruct Hitems as (Hdup & _).
    split; [exact Hdup|]. vm_compute in Hrep. injection Hrep as <-. reflexivity.
  - vm_compute in Hrep. discriminate.
Defined.

(** X17: the lines of the language section are the items of the summary
    ordered by count, larger counts first, and their counts add up to the
    number of spans of all entries. *)
Theorem language_report_order `{PyNumOps} (l : list DocumentLanguage) :
  ∃ out, language_report (Some l) = (if l is [] then None else Some out) ∧
         out ≡ₚ foldl lang_step [] l ∧
         StronglySorted count_desc out ∧
         sum_list (map (λ x, li_count x.2) out) = span_total l.
Proof.
  exists (sorted_items (foldl lang_step [] l)).
  split; [by destruct l|]. split; [apply sorted_items_perm|].
  split; [apply sorted_items_sorted|].
  rewrite sorted_items_perm, sum_counts_foldl_lang_step by constructor. done.
Qed.
